(** * verified-chain-bk: the proof-commitment pipeline of [backend.js]

    A shallow embedding of the Express handler [GET /verified-chain]
    (src/backend.js, first module) and of [hashMessage]
    (utils/hashMessaje.js), with the statements the design document makes
    about them.

    Layout:
    - [Bytes], [Utf8]    : byte strings, [Buffer.toString], [utf8ToBytes];
    - [CryptoJS]         : the [crypto-js/sha256] helper as [hashMessage]
                           calls it;
    - [Hasher]           : [hashMessage];
    - [Effects]          : the collaborator calls of the handler, programs
                           over them, [try]/[catch];
    - [Backend]          : [relaySetProof], [proof], [verifyProof], the
                           route handler, and [relaySetHello] of the older
                           module;
    - [Runtime]          : the server's world, a sequential interpreter and
                           an event-loop scheduler for several requests;
    - [Stub]             : a concrete node, contract and prover;
    - [Observed], [Decoder] : more readings of a run, and what the UTF-8
                           decoder holds between two bytes;
    - [Backend3]         : [relaySetProof], [verifiedProof] and the route
                           of the third module of backend.js;
    - [Startup]          : [loadContract], [initAPI], utils/web3.js and
                           the layers of the Express application;
    - [Scenarios]        : more runs against the stub;
    - the theorems. *)

From Stdlib Require Import ZArith Lia Ascii String.
From stdpp Require Import base gmap strings list.

Local Open Scope Z_scope.

(* ===================================================================== *)
(** ** Bytes *)
(* ===================================================================== *)

Module Bytes.

(** A [Buffer] / [Uint8Array]: a sequence of octets. *)
Definition bytes := list Byte.byte.

Definition to_Z (b : Byte.byte) : Z := Z.of_N (Byte.to_N b).

(** The octet with value [z mod 256]. *)
Definition of_Z (z : Z) : Byte.byte :=
  match Byte.of_N (Z.to_N (z mod 256)) with
  | Some b => b
  | None => Byte.x00
  end.

Definition hex_digit (n : Z) : ascii :=
  match String.get (Z.to_nat n) "0123456789abcdef" with
  | Some c => c
  | None => "0"%char
  end.

Definition is_hex_digit (c : ascii) : bool :=
  existsb (fun d => if decide (c = d) then true else false)
          (list_ascii_of_string "0123456789abcdef").

End Bytes.

(* ===================================================================== *)
(** ** UTF-8 and UTF-16 *)
(* ===================================================================== *)

Module Utf8.
Import Bytes.

(** A JavaScript string is a sequence of UTF-16 code units. *)
Definition js_string := list Z.

Definition REPLACEMENT : Z := 0xFFFD.

(** State of the decoder while it is inside a multi-byte sequence. *)
Record pending := {
  code_point : Z;
  bytes_needed : Z;
  lower : Z;
  upper : Z;
}.

(** First byte of a sequence: either a finished code point, or a pending
    multi-byte sequence. *)
Definition lead (b : Z) : Z + pending :=
  if b <=? 0x7F then inl b
  else if (0xC2 <=? b) && (b <=? 0xDF) then
    inr {| code_point := Z.land b 0x1F; bytes_needed := 1;
           lower := 0x80; upper := 0xBF |}
  else if (0xE0 <=? b) && (b <=? 0xEF) then
    inr {| code_point := Z.land b 0xF; bytes_needed := 2;
           lower := (if b =? 0xE0 then 0xA0 else 0x80);
           upper := (if b =? 0xED then 0x9F else 0xBF) |}
  else if (0xF0 <=? b) && (b <=? 0xF4) then
    inr {| code_point := Z.land b 0x7; bytes_needed := 3;
           lower := (if b =? 0xF0 then 0x90 else 0x80);
           upper := (if b =? 0xF4 then 0x8F else 0xBF) |}
  else inl REPLACEMENT.

(** One byte through the decoder: the code points it completes, and the
    state it leaves. A byte that cannot continue the pending sequence ends
    it with U+FFFD and is looked at again as a first byte. *)
Definition step (st : option pending) (b : Z) : list Z * option pending :=
  match st with
  | None =>
    match lead b with
    | inl cp => ([cp], None)
    | inr p => ([], Some p)
    end
  | Some p =>
    if (lower p <=? b) && (b <=? upper p) then
      let cp := Z.lor (Z.shiftl (code_point p) 6) (Z.land b 0x3F) in
      if bytes_needed p =? 1 then ([cp], None)
      else ([], Some {| code_point := cp;
                        bytes_needed := bytes_needed p - 1;
                        lower := 0x80; upper := 0xBF |})
    else
      match lead b with
      | inl cp => ([REPLACEMENT; cp], None)
      | inr q => ([REPLACEMENT], Some q)
      end
  end.

(** The decoder behind [Buffer.prototype.toString('utf8')]: every maximal
    ill-formed subsequence becomes one U+FFFD, also a sequence cut short
    by the end of the buffer; no byte-order mark is removed. *)
Fixpoint decode (st : option pending) (bs : list Z) : list Z :=
  match bs with
  | [] => match st with None => [] | Some _ => [REPLACEMENT] end
  | b :: rest => (step st b).1 ++ decode (step st b).2 rest
  end.

(** Code point to UTF-16 code units. *)
Definition utf16_units (cp : Z) : list Z :=
  if cp <? 0x10000 then [cp]
  else [0xD800 + Z.shiftr (cp - 0x10000) 10;
        0xDC00 + Z.land (cp - 0x10000) 0x3FF].

(** [buf.toString()] *)
Definition Buffer_toString (buf : bytes) : js_string :=
  flat_map utf16_units (decode None (map to_Z buf)).

Definition is_high (u : Z) : bool := (0xD800 <=? u) && (u <=? 0xDBFF).
Definition is_low (u : Z) : bool := (0xDC00 <=? u) && (u <=? 0xDFFF).

(** UTF-16 code units to scalar values, as [TextEncoder] reads a string:
    a surrogate pair is one code point, a lone surrogate is U+FFFD. *)
Fixpoint scalar_values (s : js_string) : list Z :=
  match s with
  | [] => []
  | u :: rest =>
    if is_high u then
      match rest with
      | v :: rest' =>
        if is_low v
        then (0x10000 + Z.shiftl (u - 0xD800) 10 + (v - 0xDC00))
               :: scalar_values rest'
        else REPLACEMENT :: scalar_values rest
      | [] => [REPLACEMENT]
      end
    else if is_low u then REPLACEMENT :: scalar_values rest
    else u :: scalar_values rest
  end.

Definition encode_scalar (cp : Z) : list Z :=
  if cp <? 0x80 then [cp]
  else if cp <? 0x800 then
    [Z.lor 0xC0 (Z.shiftr cp 6); Z.lor 0x80 (Z.land cp 0x3F)]
  else if cp <? 0x10000 then
    [Z.lor 0xE0 (Z.shiftr cp 12);
     Z.lor 0x80 (Z.land (Z.shiftr cp 6) 0x3F);
     Z.lor 0x80 (Z.land cp 0x3F)]
  else
    [Z.lor 0xF0 (Z.shiftr cp 18);
     Z.lor 0x80 (Z.land (Z.shiftr cp 12) 0x3F);
     Z.lor 0x80 (Z.land (Z.shiftr cp 6) 0x3F);
     Z.lor 0x80 (Z.land cp 0x3F)].

(** [utf8ToBytes(str)] of ethereum-cryptography/utils:
    [new TextEncoder().encode(str)]. *)
Definition utf8ToBytes (str : js_string) : bytes :=
  map of_Z (flat_map encode_scalar (scalar_values str)).

(** A Unicode scalar value: a code point that is not a surrogate. *)
Definition scalar (cp : Z) : Prop :=
  0 <= cp < 0x110000 /\ ~ (0xD800 <= cp <= 0xDFFF).

(** A buffer that is the UTF-8 encoding of some text. *)
Definition well_formed_utf8 (a : bytes) : Prop :=
  exists cps : list Z,
    Forall scalar cps /\ map to_Z a = flat_map encode_scalar cps.

(** The decoder on a prefix of its input. *)
Fixpoint feed (st : option pending) (bs : list Z)
  : list Z * option pending :=
  match bs with
  | [] => ([], st)
  | b :: rest =>
    let '(out, st') := step st b in
    let '(out', st'') := feed st' rest in
    (out ++ out', st'')
  end.

(** [P] on the [2 ^ d] integers from [lo], by halving. *)
Fixpoint all_in (d : nat) (lo : Z) (P : Z -> bool) : bool :=
  match d with
  | O => P lo
  | S d' => all_in d' lo P && all_in d' (lo + 2 ^ Z.of_nat d') P
  end.

Definition continuation_ok (c : Z) : bool :=
  (0x80 <=? Z.lor 0x80 c) && (Z.lor 0x80 c <=? 0xBF)
  && (Z.land (Z.lor 0x80 c) 0x3F =? c).

(** The leading two bytes of the encoding of a code point whose bits
    above the lowest six are [hi] (three bytes) or above the lowest
    twelve are [hh] (four bytes). *)
Definition lead2_ok (cp : Z) : bool :=
  if (0x80 <=? cp) && (cp <? 0x800) then
    match feed None (encode_scalar cp) with
    | ([cp'], None) => cp' =? cp
    | _ => false
    end
  else true.

Definition lead3_ok (hi : Z) : bool :=
  if (0x20 <=? hi) && (hi <? 0x400) && negb ((0x360 <=? hi) && (hi <? 0x380))
  then
    match feed None [Z.lor 0xE0 (Z.shiftr hi 6);
                     Z.lor 0x80 (Z.land hi 0x3F)] with
    | ([], Some p) =>
      (code_point p =? hi) && (bytes_needed p =? 1)
      && (lower p =? 0x80) && (upper p =? 0xBF)
    | _ => false
    end
  else true.

Definition lead4_ok (hh : Z) : bool :=
  if (0x10 <=? hh) && (hh <? 0x110) then
    match feed None [Z.lor 0xF0 (Z.shiftr hh 6);
                     Z.lor 0x80 (Z.land hh 0x3F)] with
    | ([], Some p) =>
      (code_point p =? hh) && (bytes_needed p =? 2)
      && (lower p =? 0x80) && (upper p =? 0xBF)
    | _ => false
    end
  else true.

End Utf8.

(* ===================================================================== *)
(** ** crypto-js: [require('crypto-js/sha256')] *)
(* ===================================================================== *)

(** [SHA256(message)] is [new SHA256.init().finalize(message)]: a fresh
    hasher, one [_append(message)], then [_doFinalize()]. The library is a
    dependency of the repository; the definitions below follow its
    [core.js] and [sha256.js] (version 4), function by function, for the two
    kinds of argument that matter here: a [WordArray], which is what the
    hasher is written for, and a typed array, which is what [hashMessage]
    hands it. The code that takes the argument in is
    [[
    _append: function (data) {
        if (typeof data == 'string') { data = Utf8.parse(data); }
        this._data.concat(data);
        this._nDataBytes += data.sigBytes;
    }
    concat: function (wordArray) {
        var thisWords = this.words;       var thatWords = wordArray.words;
        var thisSigBytes = this.sigBytes; var thatSigBytes = wordArray.sigBytes;
        this.clamp();
        if (thisSigBytes % 4) { ... one byte at a time ... }
        else {
            for (var j = 0; j < thatSigBytes; j += 4) {
                thisWords[(thisSigBytes + j) >>> 2] = thatWords[j >>> 2];
            }
        }
        this.sigBytes += thatSigBytes;
        return this;
    }
    ]]
    and nothing in it looks at the elements of a typed array. *)
Module CryptoJS.
Import Bytes.

Definition w32 (x : Z) : Z := x mod 2 ^ 32.

(** The hasher's counters are JavaScript numbers: integers here, or NaN. *)
Inductive num := Int (z : Z) | NaN.

(** [ToUint32], applied by the bit operators to their operands. *)
Definition to_uint32 (n : num) : Z :=
  match n with Int z => w32 z | NaN => 0 end.

Definition lift1 (f : Z -> Z) (n : num) : num :=
  match n with Int z => Int (f z) | NaN => NaN end.

(** [x + undefined] is NaN. *)
Definition plus_prop (x : Z) (p : option Z) : num :=
  match p with Some y => Int (x + y) | None => NaN end.

(** [x << count] on 32-bit operands; only the low five bits of the count
    are used. *)
Definition shl (x : Z) (count : num) : Z :=
  w32 (Z.shiftl x (Z.land (to_uint32 count) 31)).

Record WordArray := { words : list Z; sigBytes : Z }.

(** What [SHA256] can be called with. *)
Inductive message :=
| MWordArray (w : WordArray)
| MTypedArray (b : bytes).

(** [data.words] and [data.sigBytes]: a [Uint8Array] has neither
    property. *)
Definition prop_words (data : message) : option (list Z) :=
  match data with MWordArray w => Some (words w) | MTypedArray _ => None end.
Definition prop_sigBytes (data : message) : option Z :=
  match data with MWordArray w => Some (sigBytes w) | MTypedArray _ => None end.

(** Big-endian packing of octets into 32-bit words
    ([WordArray.create(typedArray)] of lib-typedarrays). *)
Fixpoint pack (bs : list Z) : list Z :=
  match bs with
  | a :: b :: c :: d :: rest =>
      (a * 2 ^ 24 + b * 2 ^ 16 + c * 2 ^ 8 + d) :: pack rest
  | [a; b; c] => [a * 2 ^ 24 + b * 2 ^ 16 + c * 2 ^ 8]
  | [a; b] => [a * 2 ^ 24 + b * 2 ^ 16]
  | [a] => [a * 2 ^ 24]
  | [] => []
  end.

Definition WordArray_create (b : bytes) : WordArray :=
  {| words := pack (map to_Z b); sigBytes := Z.of_nat (length b) |}.

(** [this._data.concat(data)] on the empty buffer of a fresh hasher
    ([thisSigBytes = 0], so the word-by-word loop
    [for (j = 0; j < thatSigBytes; j += 4)] is taken), followed by
    [this._nDataBytes += data.sigBytes]. Returns the buffer's words, its
    [sigBytes] and [_nDataBytes]. With [thatSigBytes] undefined the loop
    test [j < undefined] is false at once and both sums are NaN. *)
Definition append_fresh (data : message) : list Z * num * num :=
  let copied :=
    match prop_sigBytes data, prop_words data with
    | Some n, Some ws =>
        map (fun j => nth j ws 0) (seq 0 (Z.to_nat ((n + 3) / 4)))
    | _, _ => []
    end in
  (copied, plus_prop 0 (prop_sigBytes data), plus_prop 0 (prop_sigBytes data)).

(** [ws[i] = f(ws[i])]; writing past the end extends the array, and a
    hole reads as 0 under the bit operators. *)
Definition update_word (i : Z) (f : Z -> Z) (ws : list Z) : list Z :=
  let n := Z.to_nat i in
  let ws' := ws ++ repeat 0 (S n - length ws)%nat in
  <[n := f (nth n ws' 0)]> ws'.

Definition rotr (n x : Z) : Z :=
  Z.lor (Z.shiftr x n) (w32 (Z.shiftl x (32 - n))).

(** [sha256.js] computes its constants when the module is loaded: for the
    first 64 primes [n], [K] holds the first 32 fractional bits of the cube
    root of [n], and [H] those of the square roots of the first eight. Here
    the roots are integer roots of [n] scaled by a power of two. *)
Definition isPrime (n : Z) : bool :=
  forallb (fun factor => negb (n mod Z.of_nat factor =? 0))
          (seq 2 (Z.to_nat (Z.sqrt n) - 1)).

Definition primes : list Z :=
  List.filter isPrime (map Z.of_nat (seq 2 310)).

(** The largest [r] below [2 ^ bits] with [r ^ 3 <= n]. *)
Fixpoint cube_root (bits : nat) (n r : Z) : Z :=
  match bits with
  | O => r
  | S bits' =>
    let r' := r + 2 ^ Z.of_nat bits' in
    cube_root bits' n (if r' * r' * r' <=? n then r' else r)
  end.

Definition H : list Z :=
  Eval vm_compute in
    map (fun n => w32 (Z.sqrt (n * 2 ^ 64))) (firstn 8 primes).

Definition K : list Z :=
  Eval vm_compute in
    map (fun n => w32 (cube_root 36 (n * 2 ^ 96) 0)) primes.

(** The message schedule [W[16..63]], built on the reversed list. *)
Fixpoint schedule (n : nat) (rev_w : list Z) : list Z :=
  match n with
  | O => rev_w
  | S n' =>
    let g0x := nth 14 rev_w 0 in
    let g1x := nth 1 rev_w 0 in
    let gamma0 :=
      Z.lxor (Z.lxor (rotr 7 g0x) (rotr 18 g0x)) (Z.shiftr g0x 3) in
    let gamma1 :=
      Z.lxor (Z.lxor (rotr 17 g1x) (rotr 19 g1x)) (Z.shiftr g1x 10) in
    schedule n' (w32 (gamma0 + nth 6 rev_w 0 + gamma1 + nth 15 rev_w 0)
                   :: rev_w)
  end.

Definition round (st : list Z) (kw : Z * Z) : list Z :=
  match st with
  | [a; b; c; d; e; f; g; h] =>
    let ch := Z.lxor (Z.land e f) (Z.land (Z.lxor e (2 ^ 32 - 1)) g) in
    let maj := Z.lxor (Z.lxor (Z.land a b) (Z.land a c)) (Z.land b c) in
    let sigma0 := Z.lxor (Z.lxor (rotr 2 a) (rotr 13 a)) (rotr 22 a) in
    let sigma1 := Z.lxor (Z.lxor (rotr 6 e) (rotr 11 e)) (rotr 25 e) in
    let t1 := h + sigma1 + ch + kw.1 + kw.2 in
    let t2 := sigma0 + maj in
    [w32 (t1 + t2); a; b; c; w32 (d + t1); e; f; g]
  | _ => st
  end.

(** [_doProcessBlock(M, offset)]; [M[offset + i] | 0] reads a hole or a
    NaN as 0. *)
Definition doProcessBlock (hash M : list Z) (offset : nat) : list Z :=
  let block := map (fun i => w32 (nth (offset + i) M 0)) (seq 0 16) in
  let W := rev (schedule 48 (rev block)) in
  let st := fold_left round (zip K W) hash in
  zip_with (fun x y => w32 (x + y)) hash st.

(** [_process()]: every complete 16-word block of the buffer. *)
Definition process (hash M : list Z) : list Z :=
  fold_left (fun h k => doProcessBlock h M (16 * k))
            (seq 0 (length M / 16)) hash.

(** [_doFinalize()]:
    [[
    var nBitsTotal = this._nDataBytes * 8;
    var nBitsLeft = data.sigBytes * 8;
    dataWords[nBitsLeft >>> 5] |= 0x80 << (24 - nBitsLeft % 32);
    dataWords[(((nBitsLeft + 64) >>> 9) << 4) + 14]
      = Math.floor(nBitsTotal / 0x100000000);
    dataWords[(((nBitsLeft + 64) >>> 9) << 4) + 15] = nBitsTotal;
    data.sigBytes = dataWords.length * 4;
    this._process();
    return this._hash;
    ]] *)
Definition doFinalize (dataWords : list Z) (data_sigBytes nDataBytes : num)
  : WordArray :=
  let nBitsTotal := lift1 (Z.mul 8) nDataBytes in
  let nBitsLeft := lift1 (Z.mul 8) data_sigBytes in
  let dataWords :=
    update_word (Z.shiftr (to_uint32 nBitsLeft) 5)
      (fun w => Z.lor w (shl 0x80 (lift1 (fun n => 24 - n mod 32) nBitsLeft)))
      dataWords in
  let at_ (k : Z) :=
    Z.shiftl (Z.shiftr (to_uint32 (lift1 (Z.add 64) nBitsLeft)) 9) 4 + k in
  let dataWords :=
    update_word (at_ 14)
      (fun _ => to_uint32 (lift1 (fun n => n / 0x100000000) nBitsTotal))
      dataWords in
  let dataWords :=
    update_word (at_ 15) (fun _ => to_uint32 nBitsTotal) dataWords in
  {| words := process H dataWords; sigBytes := 32 |}.

Definition SHA256 (data : message) : WordArray :=
  let '(dataWords, data_sigBytes, nDataBytes) := append_fresh data in
  doFinalize dataWords data_sigBytes nDataBytes.

(** [wordArray.toString()], that is [Hex.stringify(wordArray)]. *)
Definition toString (w : WordArray) : string :=
  string_of_list_ascii
    (flat_map
       (fun i =>
          let bite :=
            Z.land (Z.shiftr (nth (i / 4) (words w) 0)
                             (24 - Z.of_nat (i mod 4) * 8)) 0xff in
          [hex_digit (Z.shiftr bite 4); hex_digit (Z.land bite 0xf)])
       (seq 0 (Z.to_nat (sigBytes w)))).

(** The SHA-256 digest of a byte string, in hexadecimal: the hasher run
    on the [WordArray] of the bytes. *)
Definition sha256_hex (b : bytes) : string :=
  toString (SHA256 (MWordArray (WordArray_create b))).

End CryptoJS.

(* ===================================================================== *)
(** ** utils/hashMessaje.js *)
(* ===================================================================== *)

Module Hasher.
Import Bytes Utf8.

(** [[
    export function hashMessage(message) {
        const bytes = utf8ToBytes(message);
        const hash = SHA256(bytes);
        return `0x${hash}`
    }
    ]] *)
Definition hashMessage (message : js_string) : string :=
  let bytes := utf8ToBytes message in
  let hash := CryptoJS.SHA256 (CryptoJS.MTypedArray bytes) in
  "0x" +:+ CryptoJS.toString hash.

(** The commitment of a proof artifact as [proof] and [verifyProof]
    compute it: [hashMessage(fs.readFileSync(path).toString())]. *)
Definition commitment_of (artifact : bytes) : string :=
  hashMessage (Buffer_toString artifact).

(** The [bytes] of [hashMessage] when its message is the text of an
    artifact. *)
Definition hashed_bytes (artifact : bytes) : bytes :=
  utf8ToBytes (Buffer_toString artifact).

End Hasher.

(* ===================================================================== *)
(** ** JavaScript numbers *)
(* ===================================================================== *)

(** [weiCounter - 1] in [verifyProof] subtracts from a decimal string:
    the string becomes a Number, an IEEE 754 double, and the difference is
    a double again. The values met here are integers. *)
Module JSNumber.

(** A Number whose value is an integer, or an infinity. *)
Inductive number := Finite (z : Z) | PosInfinity | NegInfinity.

(** The double nearest to a non-negative integer: the 53 leading bits are
    kept and the rest is rounded to nearest, ties to the even
    significand. An integer below [2 ^ 53] is a double. *)
Definition nearest_double (n : Z) : Z :=
  let e := Z.log2 n - 52 in
  if e <=? 0 then n
  else
    let q := Z.shiftr n e in
    let rest := n - Z.shiftl q e in
    let half := Z.shiftl 1 (e - 1) in
    Z.shiftl
      (if (half <? rest) || ((rest =? half) && Z.odd q) then q + 1 else q) e.

(** [ToNumber] of the decimal string of an integer; from
    [2 ^ 1024 - 2 ^ 970] on the value is [Infinity]. *)
Definition Number_of (z : Z) : number :=
  let m := nearest_double (Z.abs z) in
  if 2 ^ 1024 <=? m then (if z <? 0 then NegInfinity else PosInfinity)
  else Finite (Z.sgn z * m).

(** [x - 1] *)
Definition minus_one (x : number) : number :=
  match x with
  | Finite v => Number_of (v - 1)
  | PosInfinity => PosInfinity
  | NegInfinity => NegInfinity
  end.

End JSNumber.

(* ===================================================================== *)
(** ** Collaborator calls and programs over them *)
(* ===================================================================== *)

Module Effects.
Import Bytes Utf8 JSNumber.

(** What a collaborator throws, or a promise rejects with. *)
Inductive error :=
| ProcessFailed (code : Z) (stdout stderr : string)
| FsError (code path : string)
| Web3Error (reason : string).

(** A call either returns or throws. *)
Inductive answer (A : Type) :=
| Returned (a : A)
| Thrown (e : error).
Arguments Returned {A} a.
Arguments Thrown {A} e.

(** A value of [req.query]: absent, a string, or what the query-string
    parser builds from [a[]=..] and [a[k]=..]. *)
#[local] Unset Elimination Schemes.
Inductive qval :=
| QUndefined
| QString (s : string)
| QArray (items : list qval)
| QObject (fields : list (string * qval)).
#[local] Set Elimination Schemes.

(** The string a value becomes under [+] with a string. *)
Fixpoint to_string (v : qval) : string :=
  match v with
  | QUndefined => "undefined"
  | QString s => s
  | QArray items =>
    (fix join (l : list qval) : string :=
       match l with
       | [] => ""
       | x :: rest =>
         let sx := match x with QUndefined => "" | _ => to_string x end in
         match rest with
         | [] => sx
         | _ :: _ => sx +:+ "," +:+ join rest
         end
       end) items
  | QObject _ => "[object Object]"
  end.

Record request := { query : gmap string qval }.

(** [req.query[name]] *)
Definition param (req : request) (name : string) : qval :=
  default QUndefined (query req !! name).

Record account := { address : string; privateKey : string }.

(** [contract.methods.m(args)] *)
Record tx_object := { method : string; arguments : list string }.

(** The object handed to [sendTransaction] / [signTransaction]; a field
    the object literal does not mention is [None]. *)
Record transaction := {
  tx_from : option string;
  tx_to : string;
  tx_value : option Z;
  tx_gas : Z;
  tx_gasPrice : option string;
  tx_nonce : option Z;
  tx_data : string;
}.

Record receipt := { transactionHash : string; status : bool }.

(** Arguments of [console.log]. *)
Inductive logged :=
| LString (s : string)
| LBool (b : bool)
| LAccount (a : account)
| LReceipt (r : receipt)
| LError (e : error)
| LOutput (stdout stderr : string) (hello helloSetter signature : qval).

(** [res.send({ "message": message })] *)
Record body := { message : string }.

(** Calls into web3: the provider, the contract handle and [web3.utils]. *)
Inductive web3_call : Type -> Type :=
| privateKeyToAccount (key : option string) : web3_call account
| toChecksumAddress (a : string) : web3_call string
| isAddress (a : string) : web3_call bool
| wallet_add (a : account) : web3_call unit
| set_defaultAccount (a : string) : web3_call unit
| get_defaultAccount : web3_call string
| create_proof (hello : string) : web3_call tx_object
| getGasPrice : web3_call string
| estimateGas (tx : tx_object) (from : string) : web3_call Z
| encodeABI (tx : tx_object) : web3_call string
| options_address : web3_call string
| sendTransaction (txData : transaction) : web3_call receipt
| counter_call : web3_call Z
| verify_proof_call (index : number) (commitment : string) : web3_call bool
| getTransactionCount (a block : string) : web3_call Z
| relaySetHello_call (hello helloSetter signature : qval)
    : web3_call tx_object
| signTransaction (tx : transaction) (key : option string)
    : web3_call string
| sendSignedTransaction (rawTransaction : string) : web3_call string.

Inductive Eff : Type -> Type :=
| exec (command : string) : Eff (string * string)
| console_log (args : list logged) : Eff unit
| readFileSync (path : string) : Eff bytes
| writeFileSync (path : string) (data : js_string) : Eff unit
| web3 {X : Type} (c : web3_call X) : Eff X
| res_setHeader (name value : string) : Eff unit
| res_send (b : body) : Eff unit.

(** A body of JavaScript code: it returns, throws, or makes a call and
    goes on with the answer. *)
Inductive Prog (A : Type) : Type :=
| Ret (a : A)
| Throw (e : error)
| Vis {X : Type} (c : Eff X) (k : answer X -> Prog A).
Arguments Ret {A} a.
Arguments Throw {A} e.
Arguments Vis {A X} c k.

Fixpoint bind {A B : Type} (f : A -> Prog B) (p : Prog A) : Prog B :=
  match p with
  | Ret a => f a
  | Throw e => Throw e
  | Vis c k => Vis c (fun r => bind f (k r))
  end.

#[global] Instance Prog_ret : MRet Prog := @Ret.
#[global] Instance Prog_bind : MBind Prog := @bind.

(** A call whose exception is not handled on the spot. *)
Definition call {X : Type} (c : Eff X) : Prog X :=
  Vis c (fun r => match r with Returned x => Ret x | Thrown e => Throw e end).

(** [try { body } catch (error) { handler }] *)
Fixpoint try_catch {A : Type} (body : Prog A) (handler : error -> Prog A)
  : Prog A :=
  match body with
  | Ret a => Ret a
  | Throw e => handler e
  | Vis c k => Vis c (fun r => try_catch (k r) handler)
  end.

(** The settled state of a promise. *)
Definition settle {A : Type} (p : Prog A) : Prog (answer A) :=
  try_catch (x ← p; mret (Returned x)) (fun e => mret (Thrown e)).

(** [await Promise.all([p, q])]: both calls are made, then the pair is
    awaited; a rejection of either rejects the whole. *)
Definition Promise_all {A B : Type} (p : Prog A) (q : Prog B)
  : Prog (A * B) :=
  a ← settle p;
  b ← settle q;
  match a, b with
  | Returned x, Returned y => mret (x, y)
  | Thrown e, _ => Throw e
  | _, Thrown e => Throw e
  end.

(** The calls the source waits for with [await]: between such a call and
    its continuation other requests run. *)
Definition awaited {X : Type} (c : Eff X) : bool :=
  match c with
  | exec _ => true
  | web3 c =>
    match c with
    | getGasPrice | estimateGas _ _ | sendTransaction _ | counter_call
    | verify_proof_call _ _ | getTransactionCount _ _
    | signTransaction _ _ => true
    | _ => false
    end
  | _ => false
  end.

End Effects.

(* ===================================================================== *)
(** ** backend.js *)
(* ===================================================================== *)

Module Backend.
Import Bytes Utf8 JSNumber Hasher Effects.

Definition CONTRACT_ADDRESS : string :=
  "0x7897e2050b129DC4934fe815807FC0Fe1C291194".

(** The command line of [proof]; it does not depend on the request. *)
Definition PROVE_COMMAND : string :=
  "cd ezkl && ezkl -K=17 gen-srs --params-path=kzg.params && ezkl --bits=16 -K=17 prove -D ./examples/onnx/1l_relu/input.json -M ./examples/onnx/1l_relu/network.onnx --proof-path 1l_relu.pf --vk-path 1l_relu.vk --params-path=kzg.params".

Definition PROOF_PATH : string := "./ezkl/1l_relu.pf".

Definition newline : string := String (ascii_of_nat 10) EmptyString.

Section Handlers.

(** [process.env.PRIVATE_KEY], read once when the module is loaded. *)
Variable PRIVATE_KEY : option string.

(** [async function relaySetProof(hello)] *)
Definition relaySetProof (hello : string) : Prog unit :=
  try_catch
    (account ← call (web3 (privateKeyToAccount PRIVATE_KEY));
     call (console_log [LAccount account]);;
     call (web3 (toChecksumAddress (address account)));;
     call (web3 (isAddress (address account)));;
     call (web3 (wallet_add account));;
     call (web3 (set_defaultAccount (address account)));;
     defaultAccount ← call (web3 get_defaultAccount);
     call (console_log [LString defaultAccount]);;
     txCreateProof ← call (web3 (create_proof hello));
     '(gasPrice, gasCost1) ←
       Promise_all
         (call (web3 getGasPrice))
         (from ← call (web3 get_defaultAccount);
          call (web3 (estimateGas txCreateProof from)));
     dataTx ← call (web3 (encodeABI txCreateProof));
     to ← call (web3 options_address);
     let txData :=
       {| tx_from := None; tx_to := to; tx_value := None;
          tx_gas := gasCost1; tx_gasPrice := Some gasPrice;
          tx_nonce := None; tx_data := dataTx |} in
     receipt ← call (web3 (sendTransaction txData));
     call (console_log [LReceipt receipt]))
    (fun error => call (console_log [LError error])).

(** [async function proof(hello, helloSetter, signature)] *)
Definition proof (hello helloSetter signature : qval)
  : Prog (string * string * string) :=
  '(stdout, stderr) ← call (exec PROVE_COMMAND);
  call (console_log [LString ("Output was:" +:+ newline);
                     LOutput stdout stderr hello helloSetter signature]);;
  buffer ← call (readFileSync PROOF_PATH);
  let verifyContent := Buffer_toString buffer in
  call (writeFileSync "test.txt" verifyContent);;
  let message := hashMessage verifyContent in
  call (console_log [LString message]);;
  relaySetProof message;;
  mret (stdout, stderr, message).

(** [async function verifyProof()]. [contract.methods.counter.call().call()]
    is one read of the contract's [counter]; web3 returns the [uint] as a
    decimal string, here the integer it writes, and [weiCounter - 1]
    converts the string to a Number and subtracts in doubles. *)
Definition verifyProof : Prog unit :=
  try_catch
    (account ← call (web3 (privateKeyToAccount PRIVATE_KEY));
     call (web3 (toChecksumAddress (address account)));;
     call (web3 (isAddress (address account)));;
     call (web3 (wallet_add account));;
     call (web3 (set_defaultAccount (address account)));;
     weiCounter ← call (web3 counter_call);
     buffer ← call (readFileSync PROOF_PATH);
     let verifyContent := Buffer_toString buffer in
     let message := hashMessage verifyContent in
     txCreateProof ←
       call (web3 (verify_proof_call (minus_one (Number_of weiCounter)) message));
     call (console_log [LBool txCreateProof]))
    (fun error => call (console_log [LString "My error"; LError error])).

(** [app.get('/verified-chain', async (req, res) => ...)] *)
Definition verified_chain (req : request) : Prog unit :=
  let hello := param req "hello" in
  let helloSetter := param req "helloSetter" in
  let signature := param req "signature" in
  let message :=
    to_string helloSetter +:+ " setted hello to " +:+ " "
      +:+ to_string hello in
  proof hello helloSetter signature;;
  verifyProof;;
  call (res_setHeader "Content-Type" "application/json");;
  call (res_send {| message := message |}).

(** *** The older module of the same file *)

Definition OLD_CONTRACT_ADDRESS : string :=
  "0xE59da879e33b71C145b7c526a7B8C5b93195C51D".
Definition BACKEND_WALLET_ADDRESS : string :=
  "0x18747BE67c5886881075136eb678cEADaf808028".

(** [async function relaySetHello(hello, helloSetter, signature)]; the
    callback given to [sendSignedTransaction] logs the hash or the
    error. *)
Definition relaySetHello (hello helloSetter signature : qval)
  : Prog unit :=
  nonce ← call (web3 (getTransactionCount BACKEND_WALLET_ADDRESS "latest"));
  tx ← call (web3 (relaySetHello_call hello helloSetter signature));
  data ← call (web3 (encodeABI tx));
  let transaction :=
    {| tx_from := Some BACKEND_WALLET_ADDRESS;
       tx_to := OLD_CONTRACT_ADDRESS; tx_value := Some 0;
       tx_gas := 300000; tx_gasPrice := None;
       tx_nonce := Some nonce; tx_data := data |} in
  rawTransaction ← call (web3 (signTransaction transaction PRIVATE_KEY));
  sent ← settle (call (web3 (sendSignedTransaction rawTransaction)));
  match sent with
  | Returned hash =>
    call (console_log [LString "🎉 The hash of your transaction is: ";
                       LString hash; LString newline])
  | Thrown error =>
    call (console_log
            [LString "❗Something went wrong while submitting your transaction:";
             LError error])
  end.

End Handlers.

End Backend.

(* ===================================================================== *)
(** ** The server's world *)
(* ===================================================================== *)

Module Runtime.
Import Bytes Utf8 JSNumber Hasher Effects Backend.

(** Everything outside the server process: the shell that runs the
    prover, the chain node with the deployed contract, the web3 objects.
    Their behaviour is arbitrary; [ext] is whatever state they keep. A
    command may change the files of the working directory; a web3 call
    does not touch them. *)
Record Collaborators := {
  ext : Type;
  run_command :
    string -> ext -> gmap string bytes ->
    ext * gmap string bytes * answer (string * string);
  write_error : string -> ext -> option error;
  respond : forall X : Type, web3_call X -> ext -> ext * answer X;
}.

(** One call together with its answer, as it happened. *)
Inductive event :=
| Ev {X : Type} (c : Eff X) (r : answer X).

Definition trace := list event.

(** *** Reading a trace *)

Definition is_web3 (ev : event) : bool :=
  match ev with
  | Ev c _ => match c with web3 _ => true | _ => false end
  end.

Definition is_log (ev : event) : bool :=
  match ev with
  | Ev c _ => match c with console_log _ => true | _ => false end
  end.

Definition is_write (ev : event) : bool :=
  match ev with
  | Ev c _ => match c with writeFileSync _ _ => true | _ => false end
  end.

(** The calls made into web3. *)
Definition web3_calls (t : trace) : trace := List.filter is_web3 t.

(** The trace without its [console.log] lines. *)
Definition silent (t : trace) : trace :=
  List.filter (fun ev => negb (is_log ev)) t.

(** Transactions handed to [provider.eth.sendTransaction]. *)
Definition submissions (t : trace) : list transaction :=
  flat_map (fun ev =>
    match ev with
    | Ev c _ =>
      match c with
      | web3 (sendTransaction txData) => [txData]
      | _ => []
      end
    end) t.

(** Transactions handed to [signTransaction] (older module). *)
Definition signed (t : trace) : list transaction :=
  flat_map (fun ev =>
    match ev with
    | Ev c _ =>
      match c with
      | web3 (signTransaction tx _) => [tx]
      | _ => []
      end
    end) t.

(** Arguments of [contract.methods.create_proof]. *)
Definition created (t : trace) : list string :=
  flat_map (fun ev =>
    match ev with
    | Ev c _ =>
      match c with
      | web3 (create_proof hello) => [hello]
      | _ => []
      end
    end) t.

(** Arguments of [contract.methods.verify_proof]. *)
Definition verify_calls (t : trace) : list (number * string) :=
  flat_map (fun ev =>
    match ev with
    | Ev c _ =>
      match c with
      | web3 (verify_proof_call index commitment) => [(index, commitment)]
      | _ => []
      end
    end) t.

(** The values [contract.methods.counter] returned. *)
Definition counter_reads (t : trace) : list Z :=
  flat_map (fun ev =>
    match ev with
    | @Ev X c r =>
      match c in Eff X return answer X -> list Z with
      | web3 c' =>
        match c' in web3_call X return answer X -> list Z with
        | counter_call =>
          fun r => match r with Returned n => [n] | Thrown _ => [] end
        | _ => fun _ => []
        end
      | _ => fun _ => []
      end r
    end) t.

(** The values [getTransactionCount] returned. *)
Definition nonce_reads (t : trace) : list Z :=
  flat_map (fun ev =>
    match ev with
    | @Ev X c r =>
      match c in Eff X return answer X -> list Z with
      | web3 c' =>
        match c' in web3_call X return answer X -> list Z with
        | getTransactionCount _ _ =>
          fun r => match r with Returned n => [n] | Thrown _ => [] end
        | _ => fun _ => []
        end
      | _ => fun _ => []
      end r
    end) t.

(** The contents [fs.readFileSync] returned, with the path read. *)
Definition file_reads (t : trace) : list (string * bytes) :=
  flat_map (fun ev =>
    match ev with
    | @Ev X c r =>
      match c in Eff X return answer X -> list (string * bytes) with
      | readFileSync path =>
        fun r => match r with Returned b => [(path, b)] | Thrown _ => [] end
      | _ => fun _ => []
      end r
    end) t.

(** What [res.send] was given. *)
Definition sends (t : trace) : list body :=
  flat_map (fun ev =>
    match ev with
    | Ev c _ => match c with res_send b => [b] | _ => [] end
    end) t.

(** The response the caller gets, if one was sent. *)
Definition response (t : trace) : option body := last (sends t).

(** The error the [catch] of [relaySetProof] logged, if it ran. *)
Definition caught_in_relaySetProof (t : trace) : option error :=
  head (flat_map (fun ev =>
    match ev with
    | Ev c _ =>
      match c with
      | console_log [LError e] => [e]
      | _ => []
      end
    end) t).

(** The error the [catch] of [verifyProof] logged, if it ran. *)
Definition caught_in_verifyProof (t : trace) : option error :=
  head (flat_map (fun ev =>
    match ev with
    | Ev c _ =>
      match c with
      | console_log [LString s; LError e] =>
        if String.eqb s "My error" then [e] else []
      | _ => []
      end
    end) t).

(** *** The orchestrator's state machine, read off a run

    The handler has no state variable; the stages are the stretches of
    its code. An error in [exec] or in reading the artifact leaves
    [proof] (and the handler) rejected before anything is hashed; an
    error while the text is dumped to [test.txt] rejects it in the
    hashing stretch; an error inside [relaySetProof] or [verifyProof] ends
    in that function's [catch]. *)
Inductive stage := Proving | Hashing | Submitting | Verifying.

Inductive state :=
| Done
| Failed (s : stage) (e : error).

Definition final_state (t : trace) (r : answer unit) : state :=
  match r with
  | Thrown e => Failed (if existsb is_write t then Hashing else Proving) e
  | Returned _ =>
    match caught_in_relaySetProof t with
    | Some e => Failed Submitting e
    | None =>
      match caught_in_verifyProof t with
      | Some e => Failed Verifying e
      | None => Done
      end
    end
  end.

Section World.

Context (C : Collaborators).

Record World := {
  files : gmap string bytes;
  outside : ext C;
}.

(** One call, against the world. *)
Definition handle {X : Type} (c : Eff X) (w : World) : World * answer X :=
  match c in Eff X return World * answer X with
  | exec command =>
    let '(x, fs, r) := run_command C command (outside w) (files w) in
    ({| files := fs; outside := x |}, r)
  | console_log _ => (w, Returned tt)
  | readFileSync path =>
    (w, match files w !! path with
        | Some b => Returned b
        | None => Thrown (FsError "ENOENT" path)
        end)
  | writeFileSync path data =>
    match write_error C path (outside w) with
    | Some e => (w, Thrown e)
    | None =>
      ({| files := <[path := utf8ToBytes data]> (files w);
          outside := outside w |}, Returned tt)
    end
  | web3 c =>
    let '(x, r) := respond C _ c (outside w) in
    ({| files := files w; outside := x |}, r)
  | res_setHeader _ _ => (w, Returned tt)
  | res_send _ => (w, Returned tt)
  end.

(** A request served alone, from start to end. *)
Fixpoint interp {A : Type} (p : Prog A) (w : World)
  : trace * World * answer A :=
  match p with
  | Ret a => ([], w, Returned a)
  | Throw e => ([], w, Thrown e)
  | Vis c k =>
    let '(w1, r) := handle c w in
    let '(t, w2, a) := interp (k r) w1 in
    (Ev c r :: t, w2, a)
  end.

(** *** Several requests on the event loop

    A task runs until it awaits a call; when that call completes the
    task is resumed and runs until its next [await]. *)

Fixpoint advance {A : Type} (p : Prog A) (w : World)
  : trace * World * Prog A :=
  match p with
  | Vis c k =>
    if awaited c then ([], w, p)
    else
      let '(w1, r) := handle c w in
      let '(t, w2, p') := advance (k r) w1 in
      (Ev c r :: t, w2, p')
  | _ => ([], w, p)
  end.

Definition resume {A : Type} (p : Prog A) (w : World)
  : trace * World * Prog A :=
  match p with
  | Vis c k =>
    let '(w1, r) := handle c w in
    let '(t, w2, p') := advance (k r) w1 in
    (Ev c r :: t, w2, p')
  | _ => ([], w, p)
  end.

(** A task: what is left of its handler, and what it did so far. *)
Record task := { rest : Prog unit; history : trace }.

Inductive action :=
| Arrive (p : Prog unit)   (* a request comes in and its handler starts *)
| Complete (i : nat).      (* the call task [i] awaits completes *)

Definition loop_step (st : list task * World) (a : action)
  : list task * World :=
  let '(tasks, w) := st in
  match a with
  | Arrive p =>
    let '(t, w', p') := advance p w in
    (tasks ++ [{| rest := p'; history := t |}], w')
  | Complete i =>
    match tasks !! i with
    | Some tk =>
      let '(t, w', p') := resume (rest tk) w in
      (<[i := {| rest := p'; history := history tk ++ t |}]> tasks, w')
    | None => (tasks, w)
    end
  end.

Definition event_loop (w : World) (schedule : list action)
  : list task * World :=
  fold_left loop_step schedule ([], w).

(** The settled result of a task, once its handler has ended. *)
Definition settled (tk : task) : option (answer unit) :=
  match rest tk with
  | Ret a => Some (Returned a)
  | Throw e => Some (Thrown e)
  | Vis _ _ => None
  end.

End World.

Arguments files {C} w.
Arguments outside {C} w.

(** The same collaborators, except that every [verify_proof] call that
    returns, returns [verdict]. *)
Definition with_verdict (verdict : bool) (C : Collaborators) : Collaborators :=
  {| ext := ext C;
     run_command := run_command C;
     write_error := write_error C;
     respond := fun X c x =>
       match c in web3_call X return ext C * answer X -> ext C * answer X with
       | verify_proof_call _ _ =>
         fun xr => (xr.1, match xr.2 with
                          | Returned _ => Returned verdict
                          | Thrown e => Thrown e
                          end)
       | _ => fun xr => xr
       end (respond C X c x) |}.

(** The same world, seen by the modified collaborators. *)
Definition recast (verdict : bool) {C : Collaborators} (w : World C)
  : World (with_verdict verdict C) :=
  Build_World (with_verdict verdict C) (files w) (outside w).

(** The lines of [proof] before [relaySetProof] is called. *)
Definition output_log (stdout stderr : string) (req : request) : event :=
  Ev (console_log
        [LString ("Output was:" +:+ newline);
         LOutput stdout stderr (param req "hello") (param req "helloSetter")
                 (param req "signature")])
     (Returned tt).

Definition hashed_events (stdout stderr : string) (req : request)
           (artifact : bytes) : trace :=
  [Ev (exec PROVE_COMMAND) (Returned (stdout, stderr));
   output_log stdout stderr req;
   Ev (readFileSync PROOF_PATH) (Returned artifact);
   Ev (writeFileSync "test.txt" (Buffer_toString artifact)) (Returned tt);
   Ev (console_log [LString (commitment_of artifact)]) (Returned tt)].

Definition reply_events (req : request) : trace :=
  [Ev (res_setHeader "Content-Type" "application/json") (Returned tt);
   Ev (res_send
         {| message :=
              to_string (param req "helloSetter") +:+ " setted hello to "
                +:+ " " +:+ to_string (param req "hello") |})
      (Returned tt)].

End Runtime.

(* ===================================================================== *)
(** ** A concrete node, contract and prover *)
(* ===================================================================== *)

Module Stub.
Import Bytes Utf8 JSNumber Hasher Effects Backend Runtime.

(** The contract keeps the call data of every [create_proof] it mined;
    [counter] is their number and [verify_proof(i, c)] compares entry
    [i] with the call data for [c]. The prover writes a different
    artifact at every run. *)
Record node := {
  mined : list string;
  defaultAccount : string;
  prover_runs : nat;
  prover_exit_code : Z;
  accepts_transactions : bool;
}.

Definition ascii_bytes (s : string) : bytes :=
  map (fun c => of_Z (Z.of_N (N_of_ascii c))) (list_ascii_of_string s).

Definition artifact (run : nat) : bytes :=
  ascii_bytes "proof-bytes" ++ [of_Z 0xFF; of_Z (Z.of_nat run)].

Definition abi (tx : tx_object) : string :=
  method tx +:+ "(" +:+ String.concat "," (arguments tx) +:+ ")".

Definition stub_command (command : string) (n : node)
           (fs : gmap string bytes)
  : node * gmap string bytes * answer (string * string) :=
  let n' := {| mined := mined n; defaultAccount := defaultAccount n;
               prover_runs := S (prover_runs n);
               prover_exit_code := prover_exit_code n;
               accepts_transactions := accepts_transactions n |} in
  if prover_exit_code n =? 0 then
    (n', <[PROOF_PATH := artifact (prover_runs n)]> fs,
     Returned ("proof written", ""))
  else
    (n', fs, Thrown (ProcessFailed (prover_exit_code n) "" "setup failed")).

Definition stub_respond (X : Type) (c : web3_call X) (n : node)
  : node * answer X :=
  match c in web3_call X return node * answer X with
  | privateKeyToAccount key =>
    (n, match key with
        | Some k => Returned {| address := BACKEND_WALLET_ADDRESS;
                                privateKey := k |}
        | None => Thrown (Web3Error "Private key must be 32 bytes long")
        end)
  | toChecksumAddress a => (n, Returned a)
  | isAddress a => (n, Returned true)
  | wallet_add _ => (n, Returned tt)
  | set_defaultAccount a =>
    ({| mined := mined n; defaultAccount := a;
        prover_runs := prover_runs n;
        prover_exit_code := prover_exit_code n;
        accepts_transactions := accepts_transactions n |}, Returned tt)
  | get_defaultAccount => (n, Returned (defaultAccount n))
  | create_proof hello =>
    (n, Returned {| method := "create_proof"; arguments := [hello] |})
  | getGasPrice => (n, Returned "1000000000")
  | estimateGas _ _ => (n, Returned 50000)
  | encodeABI tx => (n, Returned (abi tx))
  | options_address => (n, Returned CONTRACT_ADDRESS)
  | sendTransaction txData =>
    if accepts_transactions n then
      ({| mined := mined n ++ [tx_data txData];
          defaultAccount := defaultAccount n;
          prover_runs := prover_runs n;
          prover_exit_code := prover_exit_code n;
          accepts_transactions := true |},
       Returned {| transactionHash := "0xabc"; status := true |})
    else (n, Thrown (Web3Error "insufficient funds for gas * price + value"))
  | counter_call => (n, Returned (Z.of_nat (length (mined n))))
  | verify_proof_call index commitment =>
    (n, match index with
        | Finite i =>
          if i <? 0 then Thrown (Web3Error "value out-of-bounds")
          else if Z.of_nat (length (mined n)) <=? i then Returned false
          else Returned
                 (bool_decide
                    (mined n !! Z.to_nat i
                     = Some (abi {| method := "create_proof";
                                    arguments := [commitment] |})))
        | _ => Thrown (Web3Error "invalid number value")
        end)
  | getTransactionCount _ _ => (n, Returned (Z.of_nat (length (mined n))))
  | relaySetHello_call hello helloSetter signature =>
    (n, Returned {| method := "relaySetHello";
                    arguments := [to_string hello; to_string helloSetter;
                                  to_string signature] |})
  | signTransaction tx key =>
    (n, match key with
        | Some k => Returned ("signed:" +:+ tx_data tx)
        | None => Thrown (Web3Error "No private key given")
        end)
  | sendSignedTransaction raw =>
    if accepts_transactions n then (n, Returned "0xdef")
    else (n, Thrown (Web3Error "nonce too low"))
  end.

Definition collaborators : Collaborators :=
  {| ext := node;
     run_command := stub_command;
     write_error := fun _ _ => None;
     respond := stub_respond |}.

(** Five commitments already on chain. *)
Definition node0 : node :=
  {| mined := ["a"; "b"; "c"; "d"; "e"];
     defaultAccount := "";
     prover_runs := 0;
     prover_exit_code := 0;
     accepts_transactions := true |}.

Definition world0 : World collaborators :=
  Build_World collaborators ∅ node0.


(** The node rejects transactions. *)
Definition world_node_rejects : World collaborators :=
  Build_World collaborators ∅
    {| mined := []; defaultAccount := ""; prover_runs := 0;
       prover_exit_code := 0; accepts_transactions := false |}.

Definition KEY : option string := Some "0x01".

(** [GET /verified-chain?helloSetter=0x18..&hello=hola&signature=0x69..] *)
Definition request0 : request :=
  {| query := <["hello" := QString "hola"]>
              (<["helloSetter" := QString BACKEND_WALLET_ADDRESS]>
               (<["signature" := QString "0x6903"]> ∅)) |}.

(** A successful round trip against the stub: five commitments on chain
    before, six after. *)
Definition run0 : trace * World Stub.collaborators * answer unit :=
  interp Stub.collaborators (verified_chain Stub.KEY Stub.request0) Stub.world0.

(** The same request against a node that rejects transactions. *)
Definition run_rejected : trace * World Stub.collaborators * answer unit :=
  interp Stub.collaborators (verified_chain Stub.KEY Stub.request0)
         Stub.world_node_rejects.

(** The same request with another signature. *)
Definition request0_resigned : request :=
  {| query := <["signature" := QArray [QString "0xdead"; QUndefined]]>
                (query Stub.request0) |}.

Definition run0_resigned : trace * World Stub.collaborators * answer unit :=
  interp Stub.collaborators (verified_chain Stub.KEY request0_resigned)
         Stub.world0.

(** The stub contract answers [true] in [run0]; here it is made to answer
    [false]. *)
Definition run0_refuted
  : trace * World (with_verdict false Stub.collaborators) * answer unit :=
  interp (with_verdict false Stub.collaborators)
         (verified_chain Stub.KEY Stub.request0) (recast false Stub.world0).

(** Two requests arrive; the first one's prover finishes, then the second
    one's, and then each runs to its end. *)
Definition overlapping_schedule : list action :=
  [Arrive (verified_chain Stub.KEY Stub.request0);
   Arrive (verified_chain Stub.KEY request0_resigned);
   Complete 0; Complete 1;
   Complete 0; Complete 0; Complete 0; Complete 0; Complete 0;
   Complete 1; Complete 1; Complete 1; Complete 1; Complete 1].

(** The two requests of [overlapping_schedule], one after the other. *)
Definition in_turn : list task * World Stub.collaborators :=
  event_loop Stub.collaborators Stub.world0
    (Arrive (verified_chain Stub.KEY Stub.request0)
       :: repeat (Complete 0) 6
       ++ Arrive (verified_chain Stub.KEY request0_resigned)
       :: repeat (Complete 1) 6).

Definition no_task : task := {| rest := Throw (Web3Error ""); history := [] |}.

Definition first_task : task := default no_task (in_turn.1 !! 0%nat).

Definition second_task : task := default no_task (in_turn.1 !! 1%nat).

End Stub.

(* ===================================================================== *)
(** ** Reading more of a run *)
(* ===================================================================== *)

Module Observed.
Import Bytes Utf8 Hasher Effects Backend Runtime.

(** A call that threw, or a promise that rejected. *)
Definition threw (ev : event) : bool :=
  match ev with
  | Ev _ (Thrown _) => true
  | Ev _ (Returned _) => false
  end.

Definition is_submission (ev : event) : bool :=
  match ev with
  | Ev c _ =>
    match c with
    | web3 (sendTransaction _) => true
    | _ => false
    end
  end.

(** Raw transactions handed to [sendSignedTransaction] (older module). *)
Definition raw_sent (t : trace) : list string :=
  flat_map (fun ev =>
    match ev with
    | Ev c _ =>
      match c with
      | web3 (sendSignedTransaction raw) => [raw]
      | _ => []
      end
    end) t.

(** The error of the last call, if it threw. *)
Definition last_error (t : trace) : option error :=
  match last t with
  | Some (Ev _ (Thrown e)) => Some e
  | _ => None
  end.

(** The errors thrown, in order. *)
Definition errors (t : trace) : list error :=
  flat_map (fun ev =>
    match ev with
    | Ev _ (Thrown e) => [e]
    | Ev _ (Returned _) => []
    end) t.

(** The booleans [verify_proof] returned. *)
Definition verdicts (t : trace) : list bool :=
  flat_map (fun ev =>
    match ev with
    | @Ev X c r =>
      match c in Eff X return answer X -> list bool with
      | web3 c' =>
        match c' in web3_call X return answer X -> list bool with
        | verify_proof_call _ _ =>
          fun r => match r with Returned b => [b] | Thrown _ => [] end
        | _ => fun _ => []
        end
      | _ => fun _ => []
      end r
    end) t.

(** Whether [fs.readFileSync] was called. *)
Definition is_read (ev : event) : bool :=
  match ev with
  | Ev c _ => match c with readFileSync _ => true | _ => false end
  end.


End Observed.

(* ===================================================================== *)
(** ** Every run of a body of code *)
(* ===================================================================== *)

Module Paths.
Import Bytes Utf8 JSNumber Hasher Effects Backend Runtime.

(** The answers a call can get: [console.log] and the two methods of the
    response return; every other call returns anything or throws
    anything. *)
Definition possible {X : Type} (c : Eff X) (r : answer X) : Prop :=
  match c in Eff X return answer X -> Prop with
  | console_log _ => fun r => r = Returned tt
  | res_setHeader _ _ => fun r => r = Returned tt
  | res_send _ => fun r => r = Returned tt
  | _ => fun _ => True
  end r.

(** [P] holds of the trace and the result of every run of [p], whatever
    its calls are answered. *)
Fixpoint all_paths {A : Type} (p : Prog A) (P : trace -> answer A -> Prop)
  : Prop :=
  match p with
  | Ret a => P [] (Returned a)
  | Throw e => P [] (Thrown e)
  | Vis c k =>
    forall r, possible c r -> all_paths (k r) (fun t a => P (Ev c r :: t) a)
  end.






End Paths.

(* ===================================================================== *)
(** ** The decoder between two bytes *)
(* ===================================================================== *)

Module Decoder.
Import Bytes Utf8.

Definition octet (b : Z) : Prop := 0 <= b < 256.

(** What the decoder can hold inside a multi-byte sequence: the bits read
    so far are bounded, by the first byte and by the range it allowed for
    the second, so that the finished code point is neither a surrogate nor
    above U+10FFFF. With one byte to go the bits are those of a two-byte
    sequence ([2 .. 0x1F]), of a three-byte one ([0x20 .. 0x3FF] without
    the surrogates' [0x360 .. 0x37F]) or of a four-byte one
    ([0x400 .. 0x43FF]). With two to go they are the low bits of a
    three-byte lead ([0 .. 15], with the narrower range for the next byte
    after [E0] and [ED]) or the first two bytes of a four-byte sequence
    ([0x10 .. 0x10F]). With three to go they are the low bits of a
    four-byte lead ([0 .. 4], narrower range after [F0] and [F4]). *)
Definition sound (p : pending) : Prop :=
  0x80 <= lower p /\ upper p <= 0xBF
  /\ let cp := code_point p in
     (bytes_needed p = 1
      /\ 2 <= cp <= 0x43FF /\ ~ (0x360 <= cp <= 0x37F))
     \/ (bytes_needed p = 2
         /\ ((cp = 0 /\ 0xA0 <= lower p) \/ (cp = 13 /\ upper p <= 0x9F)
             \/ (1 <= cp <= 15 /\ cp <> 13) \/ 0x10 <= cp <= 0x10F))
     \/ (bytes_needed p = 3
         /\ ((cp = 0 /\ 0x90 <= lower p) \/ (cp = 4 /\ upper p <= 0x8F)
             \/ 1 <= cp <= 3)).

Definition sound_state (st : option pending) : Prop :=
  match st with None => True | Some p => sound p end.

End Decoder.

(* ===================================================================== *)
(** ** backend.js, third module *)
(* ===================================================================== *)

(** The third module of the file has the route answer with the prover's
    output. Its [relaySetProof] makes the calls of the first module's; its
    [verifiedProof] and its route build two object literals the first
    module does not have, [{ stdout, stderr }] for [console.log] and for
    [res.send]. *)
Module Backend3.
Import Bytes Utf8 Hasher Effects Backend Runtime.

Inductive Call : Type -> Type :=
| current {X : Type} (c : Eff X) : Call X
| console_log_output (label stdout stderr : string) : Call unit
| res_send_output (stdout stderr : string) : Call unit.

Inductive Script (A : Type) : Type :=
| Finish (a : A)
| Reject (e : error)
| Step {X : Type} (c : Call X) (k : answer X -> Script A).
Arguments Finish {A} a.
Arguments Reject {A} e.
Arguments Step {A X} c k.

Fixpoint then_ {A B : Type} (f : A -> Script B) (p : Script A) : Script B :=
  match p with
  | Finish a => f a
  | Reject e => Reject e
  | Step c k => Step c (fun r => then_ f (k r))
  end.

#[global] Instance Script_ret : MRet Script := @Finish.
#[global] Instance Script_bind : MBind Script := @then_.

Definition perform {X : Type} (c : Call X) : Script X :=
  Step c (fun r =>
    match r with Returned x => Finish x | Thrown e => Reject e end).

(** A function written over the calls of the first module. *)
Fixpoint lift {A : Type} (p : Prog A) : Script A :=
  match p with
  | Ret a => Finish a
  | Throw e => Reject e
  | Vis c k => Step (current c) (fun r => lift (k r))
  end.

(** The value [relaySetProof] gives to [create_proof]:
    [`0x${hello}`] for the [hello] of its first line. *)
Definition FIXED_COMMITMENT : string :=
  "0x" +:+ "b221d9dbb083a7f33428d7c2a3c3198ae925614d70210e28716ccaa7cd4ddb79".

Section Handlers.

(** [process.env.PRIVATE_KEY] *)
Variable PRIVATE_KEY : option string.

(** [async function relaySetProof(hello)]: the parameter is shadowed by
    [var hello = "b221.."], the first line of the [try] block. The
    argument is the text of the artifact. *)
Definition relaySetProof (_ : js_string) : Prog unit :=
  try_catch
    (let hello :=
       "b221d9dbb083a7f33428d7c2a3c3198ae925614d70210e28716ccaa7cd4ddb79" in
     account ← call (web3 (privateKeyToAccount PRIVATE_KEY));
     call (console_log [LAccount account]);;
     call (web3 (toChecksumAddress (address account)));;
     call (web3 (isAddress (address account)));;
     call (web3 (wallet_add account));;
     call (web3 (set_defaultAccount (address account)));;
     defaultAccount ← call (web3 get_defaultAccount);
     call (console_log [LString defaultAccount]);;
     txCreateProof ← call (web3 (create_proof ("0x" +:+ hello)));
     '(gasPrice, gasCost1) ←
       Promise_all
         (call (web3 getGasPrice))
         (from ← call (web3 get_defaultAccount);
          call (web3 (estimateGas txCreateProof from)));
     dataTx ← call (web3 (encodeABI txCreateProof));
     to ← call (web3 options_address);
     let txData :=
       {| tx_from := None; tx_to := to; tx_value := None;
          tx_gas := gasCost1; tx_gasPrice := Some gasPrice;
          tx_nonce := None; tx_data := dataTx |} in
     receipt ← call (web3 (sendTransaction txData));
     call (console_log [LReceipt receipt]))
    (fun error => call (console_log [LError error])).

(** [async function verifiedProof()] *)
Definition verifiedProof : Script (string * string) :=
  '(stdout, stderr) ← perform (current (exec PROVE_COMMAND));
  perform (console_log_output ("Output was:" +:+ newline) stdout stderr);;
  buffer ← perform (current (readFileSync PROOF_PATH));
  let verifyContent := Buffer_toString buffer in
  lift (relaySetProof verifyContent);;
  mret (stdout, stderr).

(** [app.get('/verified-chain', async (req, res) => ...)] *)
Definition verified_chain (req : request) : Script unit :=
  list ← verifiedProof;
  perform (current (res_setHeader "Content-Type" "application/json"));;
  perform (res_send_output list.1 list.2).

End Handlers.

(** One call of a script with its answer. *)
Inductive occurrence :=
| Occ {X : Type} (c : Call X) (r : answer X).

(** The calls that are calls of the first module. *)
Definition core (t : list occurrence) : trace :=
  flat_map (fun o =>
    match o with
    | Occ c r =>
      match c in Call X return answer X -> trace with
      | current c' => fun r => [Ev c' r]
      | _ => fun _ => []
      end r
    end) t.

(** What [res.send] was given. *)
Definition outputs_sent (t : list occurrence) : list (string * string) :=
  flat_map (fun o =>
    match o with
    | Occ c _ =>
      match c with
      | res_send_output stdout stderr => [(stdout, stderr)]
      | _ => []
      end
    end) t.

Section World.

Context (C : Collaborators).

Definition handle_call {X : Type} (c : Call X) (w : World C)
  : World C * answer X :=
  match c in Call X return World C * answer X with
  | current c' => handle C c' w
  | console_log_output _ _ _ => (w, Returned tt)
  | res_send_output _ _ => (w, Returned tt)
  end.

Fixpoint execute {A : Type} (p : Script A) (w : World C)
  : list occurrence * World C * answer A :=
  match p with
  | Finish a => ([], w, Returned a)
  | Reject e => ([], w, Thrown e)
  | Step c k =>
    let '(w1, r) := handle_call c w in
    let '(t, w2, a) := execute (k r) w1 in
    (Occ c r :: t, w2, a)
  end.

End World.

End Backend3.

(* ===================================================================== *)
(** ** Start-up: [loadContract], [initAPI], utils/web3.js *)
(* ===================================================================== *)

(** The first and the third module start the same way; they differ in the
    string the two variables hold at first, in the environment variable
    with the RPC URL and in the contract address. *)
Module Startup.
Import Bytes Utf8 Hasher Effects Backend Runtime.

Definition JSON_CONTRACT_PATH : string := "./json_abi/Contract.json".
Definition PORT : Z := 8080.

(** What the start-up code takes from its libraries: [new Web3(rpc)],
    where [rpc] is the RPC URL of the environment or, in [getContract], a
    [Web3] object; [JSON.parse]; [new web3.eth.Contract(abi, address)].
    Each may throw. And from Node: whether a promise that rejects with
    nothing waiting for it ends the process (Node 15 and later) or only
    prints a warning (before). *)
Record Library := {
  Web3 : Type;
  Contract : Type;
  json : Type;
  Web3_new : option string + Web3 -> answer Web3;
  JSON_parse : string -> answer json;
  Contract_new : Web3 -> json -> string -> answer Contract;
  unhandled_rejection_exits : bool;
}.

Record Settings := {
  placeholder : string;       (* [let provider = ..; let contract = ..;] *)
  rpc_url : option string;    (* [process.env.SCROLL_ALPHA_RPC_URL] *)
  contract_address : string;  (* [CONTRACT_ADDRESS] *)
}.

Definition first_module (SCROLL_ALPHA_RPC_URL : option string) : Settings :=
  {| placeholder := "";
     rpc_url := SCROLL_ALPHA_RPC_URL;
     contract_address := CONTRACT_ADDRESS |}.

Definition third_module (GOERLI_RPC_URL : option string) : Settings :=
  {| placeholder := "null";
     rpc_url := GOERLI_RPC_URL;
     contract_address := "0xD0ce6D448227F2C5239116Be26a1bB91BfB1c326" |}.

Section Start.

Context (L : Library) (M : Settings).

(** [export const getWeb3 = (rpc) => new Web3(rpc)] *)
Definition getWeb3 (rpc : option string + Web3 L) : answer (Web3 L) :=
  Web3_new L rpc.

(** [export const getContract = (provider, abi, address) => ...] *)
Definition getContract (provider : Web3 L) (abi : json L) (address : string)
  : answer (Contract L) :=
  match getWeb3 (inr provider) with
  | Thrown e => Thrown e
  | Returned web3' => Contract_new L web3' abi address
  end.

(** The two variables of the module: each holds a string until
    [loadContract] assigns it. *)
Record globals := {
  provider : string + Web3 L;
  contract : string + Contract L;
}.

Definition initial : globals :=
  {| provider := inl (placeholder M); contract := inl (placeholder M) |}.

(** [const loadContract = async (data) => ...]: the variables after the
    call, and how its promise settles. *)
Definition loadContract (data : string) (g : globals)
  : globals * answer unit :=
  match getWeb3 (inl (rpc_url M)) with
  | Thrown e => (g, Thrown e)
  | Returned p =>
    let g1 := {| provider := inr p; contract := contract g |} in
    match JSON_parse L data with
    | Thrown e => (g1, Thrown e)
    | Returned abi =>
      match getContract p abi (contract_address M) with
      | Thrown e => (g1, Thrown e)
      | Returned c =>
        ({| provider := inr p; contract := inr c |}, Returned tt)
      end
    end
  end.

(** A layer of the Express application: a route, whose handler ends
    the response and does not call [next], or the CORS middleware. *)
Inductive layer :=
| route (method path : string)   (* [app.get(path, handler)] *)
| cors (origin : string).        (* [app.use(cors({ origin }))] *)

(** The server process: whether it still runs, the two variables, the
    port it listens on, the layers in the order they were registered,
    what it logged, and which of the two callbacks of [initAPI] are still
    to come. *)
Record server := {
  running : bool;
  vars : globals;
  listening : option Z;
  stack : list layer;
  console : list (list logged);
  read_pending : bool;
  listen_pending : bool;
}.

(** The module evaluated down to its last line, the call [initAPI()]:
    [app.get('/verified-chain', ..)] has registered the route. *)
Definition not_started : server :=
  {| running := true; vars := initial; listening := None;
     stack := [route "GET" "/verified-chain"]; console := [];
     read_pending := false; listen_pending := false |}.

(** [async function initAPI()]: the read of the ABI file is started,
    [app.listen] is asked for the port, CORS is enabled. Nothing is read
    and no port is bound yet: the two callbacks run later. *)
Definition initAPI (s : server) : server :=
  {| running := running s; vars := vars s; listening := listening s;
     stack := stack s ++ [cors "*"]; console := console s;
     read_pending := true; listen_pending := true |}.

(** What the event loop brings after [initAPI()]: the callback of
    [fs.readFile] with an error or the content; the callback of
    [app.listen] once the port is bound; or the [error] event of the
    server when the port cannot be bound, which nothing handles. *)
Inductive callback :=
| file_read (outcome : answer string)   (* [function (err, data) {..}] *)
| listen_started                        (* [() => { console.log(..) }] *)
| listen_failed (err : error).          (* no handler: uncaught exception *)

(** The process ends: it listens no more and no callback is to come. *)
Definition exit (s : server) : server :=
  {| running := false; vars := vars s; listening := None;
     stack := stack s; console := console s;
     read_pending := false; listen_pending := false |}.

Definition on_callback (s : server) (cb : callback) : server :=
  if negb (running s) then s
  else
    match cb with
    | file_read outcome =>
      if negb (read_pending s) then s
      else
        match outcome with
        | Thrown err =>
          {| running := true; vars := vars s; listening := listening s;
             stack := stack s;
             console := console s ++ [[LError err]];
             read_pending := false; listen_pending := listen_pending s |}
        | Returned data =>
          (* [loadContract(data)]: nothing waits for its promise *)
          let '(g, r) := loadContract data (vars s) in
          let s' :=
            {| running := true; vars := g; listening := listening s;
               stack := stack s; console := console s;
               read_pending := false; listen_pending := listen_pending s |} in
          match r with
          | Returned _ => s'
          | Thrown _ => if unhandled_rejection_exits L then exit s' else s'
          end
        end
    | listen_started =>
      if negb (listen_pending s) then s
      else
        {| running := true; vars := vars s; listening := Some PORT;
           stack := stack s;
           console := console s ++ [[LString "Listening to port 8080"]];
           read_pending := read_pending s; listen_pending := false |}
    | listen_failed _ =>
      if negb (listen_pending s) then s else exit s
    end.

(** The server after [initAPI()] and what the event loop brought
    since. *)
Definition started (callbacks : list callback) : server :=
  fold_left on_callback callbacks (initAPI not_started).

Definition is_loaded {A : Type} (v : string + A) : bool :=
  match v with inl _ => false | inr _ => true end.

(** A read of the ABI file that gave its content. *)
Definition gave_data (cb : callback) : bool :=
  match cb with file_read (Returned _) => true | _ => false end.

(** [provider.eth.accounts] and [contract.methods.create_proof] on a
    variable that holds a string: [provider.eth] is [undefined] and the
    next property read throws. *)
Definition TypeError : error :=
  Web3Error "TypeError: Cannot read properties of undefined".

(** The variable a web3 call of the handler starts from: [provider],
    [contract], or neither ([web3.utils], and the methods of the object
    [contract.methods.create_proof(..)] returned). *)
Inductive receiver := the_provider | the_contract | neither.

Definition receiver_of {X : Type} (c : web3_call X) : receiver :=
  match c with
  | privateKeyToAccount _ | wallet_add _ | set_defaultAccount _
  | get_defaultAccount | getGasPrice | sendTransaction _ => the_provider
  | create_proof _ | options_address | counter_call
  | verify_proof_call _ _ => the_contract
  | _ => neither
  end.

(** A call that starts from [contract] and returned. *)
Definition contract_answered (ev : event) : bool :=
  match ev with
  | Ev c (Returned _) =>
    match c with
    | web3 c' =>
      match receiver_of c' with the_contract => true | _ => false end
    | _ => false
    end
  | Ev _ (Thrown _) => false
  end.

(** The collaborators as the handler reaches them through the two
    variables. *)
Definition through (g : globals) (C : Collaborators) : Collaborators :=
  {| ext := ext C;
     run_command := run_command C;
     write_error := write_error C;
     respond := fun X c x =>
       match receiver_of c with
       | the_provider =>
         if is_loaded (provider g) then respond C X c x
         else (x, Thrown TypeError)
       | the_contract =>
         if is_loaded (contract g) then respond C X c x
         else (x, Thrown TypeError)
       | neither => respond C X c x
       end |}.

End Start.

(** The layers a request runs through. Express walks the stack in the
    order of registration: the CORS middleware answers a preflight request
    itself and otherwise sets its header and calls [next]; a route whose
    path matches and which handles the method runs its handler, and
    nothing after it runs. [matches] is the path matching of the router; a
    [GET] route also handles [HEAD]. *)
Definition handles (m method : string) : bool :=
  String.eqb m method || (String.eqb m "GET" && String.eqb method "HEAD").

Fixpoint dispatch (matches : string -> string -> bool)
         (layers : list layer) (method path : string) : list layer :=
  match layers with
  | [] => []
  | route m p :: rest =>
    if handles m method && matches p path then [route m p]
    else dispatch matches rest method path
  | cors origin :: rest =>
    if String.eqb method "OPTIONS" then [cors origin]
    else cors origin :: dispatch matches rest method path
  end.

Arguments provider {L} g.
Arguments contract {L} g.
Arguments through {L} g C.
Arguments running {L} s.
Arguments vars {L} s.
Arguments listening {L} s.
Arguments stack {L} s.
Arguments console {L} s.
Arguments read_pending {L} s.
Arguments listen_pending {L} s.

End Startup.

(* ===================================================================== *)
(** ** More runs against the stub *)
(* ===================================================================== *)

Module Scenarios.
Import Bytes Utf8 JSNumber Hasher Effects Backend Runtime Stub Observed Paths
       Startup.

(** A contract nothing was stored in yet, with an artifact on disk. *)
Definition world_fresh_contract : World collaborators :=
  Build_World collaborators {[ PROOF_PATH := artifact 0 ]}
    {| mined := []; defaultAccount := ""; prover_runs := 1;
       prover_exit_code := 0; accepts_transactions := true |}.

Definition verify_on_fresh_contract
  : trace * World collaborators * answer unit :=
  interp collaborators (verifyProof KEY) world_fresh_contract.

(** [verifyProof] before any prover run: no artifact on disk. *)
Definition verify_without_artifact
  : trace * World collaborators * answer unit :=
  interp collaborators (verifyProof KEY) world0.

(** The request of [run0] after the prover has already run once: the
    artifact differs from that of [run0]. *)
Definition world_second_run : World collaborators :=
  Build_World collaborators ∅
    {| mined := ["a"]; defaultAccount := ""; prover_runs := 1;
       prover_exit_code := 0; accepts_transactions := true |}.

Definition run_second : trace * World collaborators * answer unit :=
  interp collaborators (verified_chain KEY request0) world_second_run.

(** Libraries that never throw, on unit handles, under a Node that ends
    the process on an unhandled rejection. *)
Definition library0 : Library :=
  {| Web3 := unit; Contract := unit; json := unit;
     Web3_new := fun _ => Returned tt;
     JSON_parse := fun _ => Returned tt;
     Contract_new := fun _ _ _ => Returned tt;
     unhandled_rejection_exits := true |}.

(** The stub node reached while both variables still hold [""]. *)
Definition not_loaded : Collaborators :=
  through (initial library0 (first_module None)) collaborators.

Definition run_not_loaded : trace * World not_loaded * answer unit :=
  interp not_loaded (verified_chain KEY request0)
         (Build_World not_loaded ∅ node0).






End Scenarios.

(* ===================================================================== *)
(** ** Running the handlers symbolically *)
(* ===================================================================== *)

Import Bytes Utf8 JSNumber Hasher Effects Backend Runtime Stub Observed Paths
       Scenarios.

(** The next collaborator call of a run is answered: name the answer and
    split on whether it returned or threw. *)
Ltac answer_next :=
  match goal with
  | |- context [respond ?C ?X ?c ?x] =>
    let x' := fresh "x" in
    let r := fresh "r" in
    let E := fresh "E" in
    destruct (respond C X c x) as [x' r] eqn:E; destruct r
  | |- context [run_command ?C ?cmd ?x ?fs] =>
    let E := fresh "E" in
    destruct (run_command C cmd x fs) as [[? ?] [[? ?]|?]] eqn:E
  | |- context [write_error ?C ?p ?x] =>
    let E := fresh "E" in
    destruct (write_error C p x) eqn:E
  | |- context [@lookup _ _ (gmap string bytes) _ ?p ?fs] =>
    let E := fresh "E" in
    destruct (@lookup _ _ (gmap string bytes) _ p fs) eqn:E
  end.

(** A file read after [test.txt] was written, or read before. *)
Ltac known_reads :=
  repeat first
    [ rewrite lookup_insert_ne by (unfold PROOF_PATH; discriminate)
    | match goal with
      | H : @lookup _ _ _ _ ?p ?fs = _ |- context [@lookup _ _ _ _ ?p ?fs] =>
        rewrite H
      end ].

Ltac run := cbn; repeat (first [progress known_reads | answer_next]; cbn).

(** An event is in a trace that is written out. *)
Ltac in_trace := repeat (first [left; reflexivity | right]).

(** In a trace that is written out, no call threw but [sendTransaction]. *)
Ltac only_the_submission_threw :=
  repeat (constructor; [cbn; intros ?; first [discriminate | reflexivity]|]);
  constructor.



(** The two functions are opened with [unfold] where their code is run, and
    kept closed elsewhere. *)
#[local] Arguments relaySetProof : simpl never.
#[local] Arguments verifyProof : simpl never.

(** *** Reading the trace of two stretches of code in a row *)

Section TraceApp.

Variables a b : trace.

Lemma file_reads_app : file_reads (a ++ b) = file_reads a ++ file_reads b.
Proof. apply flat_map_app. Qed.

Lemma created_app : created (a ++ b) = created a ++ created b.
Proof. apply flat_map_app. Qed.

Lemma submissions_app : submissions (a ++ b) = submissions a ++ submissions b.
Proof. apply flat_map_app. Qed.

Lemma signed_app : signed (a ++ b) = signed a ++ signed b.
Proof. apply flat_map_app. Qed.

Lemma verify_calls_app : verify_calls (a ++ b) = verify_calls a ++ verify_calls b.
Proof. apply flat_map_app. Qed.

Lemma counter_reads_app :
  counter_reads (a ++ b) = counter_reads a ++ counter_reads b.
Proof. apply flat_map_app. Qed.

Lemma nonce_reads_app : nonce_reads (a ++ b) = nonce_reads a ++ nonce_reads b.
Proof. apply flat_map_app. Qed.

Lemma sends_app : sends (a ++ b) = sends a ++ sends b.
Proof. apply flat_map_app. Qed.

Lemma verdicts_app : verdicts (a ++ b) = verdicts a ++ verdicts b.
Proof. apply flat_map_app. Qed.

Lemma errors_app : errors (a ++ b) = errors a ++ errors b.
Proof. apply flat_map_app. Qed.

Lemma web3_calls_app : web3_calls (a ++ b) = web3_calls a ++ web3_calls b.
Proof. apply List.filter_app. Qed.

Lemma silent_app : silent (a ++ b) = silent a ++ silent b.
Proof. apply List.filter_app. Qed.

Lemma caught_in_relaySetProof_app :
  caught_in_relaySetProof (a ++ b) =
  match caught_in_relaySetProof a with
  | Some e => Some e
  | None => caught_in_relaySetProof b
  end.
Proof.
  unfold caught_in_relaySetProof. rewrite flat_map_app.
  destruct (flat_map _ a); reflexivity.
Qed.

Lemma caught_in_verifyProof_app :
  caught_in_verifyProof (a ++ b) =
  match caught_in_verifyProof a with
  | Some e => Some e
  | None => caught_in_verifyProof b
  end.
Proof.
  unfold caught_in_verifyProof. rewrite flat_map_app.
  destruct (flat_map _ a); reflexivity.
Qed.

End TraceApp.

Create Rewrite HintDb trace_app.
#[local] Hint Rewrite file_reads_app created_app submissions_app signed_app
  verify_calls_app counter_reads_app nonce_reads_app sends_app web3_calls_app
  silent_app caught_in_relaySetProof_app caught_in_verifyProof_app
  verdicts_app errors_app
  : trace_app.

Section Runs.

Context (C : Collaborators) (PRIVATE_KEY : option string).

(** *** Sequencing *)

Lemma interp_bind {A B : Type} (p : Prog A) (f : A -> Prog B) (w : World C) :
  interp C (p ≫= f) w =
  match interp C p w with
  | (t1, w1, Returned a) =>
    let '(t2, w2, r) := interp C (f a) w1 in (t1 ++ t2, w2, r)
  | (t1, w1, Thrown e) => (t1, w1, Thrown e)
  end.
Proof.
  revert w. induction p as [a|e|X c k IH]; intros w; cbn.
  - destruct (interp C (f a) w) as [[t2 w2] r]. reflexivity.
  - reflexivity.
  - destruct (handle C c w) as [w1 r].
    change (bind f (k r)) with (k r ≫= f). rewrite IH.
    destruct (interp C (k r) w1) as [[t1 w2] [a|e]]; [|reflexivity].
    destruct (interp C (f a) w2) as [[t2 w3] r']. reflexivity.
Qed.

(** *** The event loop against a request served alone *)

Lemma advance_interp {A : Type} (p : Prog A) (w : World C) :
  interp C p w =
  let '(t1, w1, p1) := advance C p w in
  let '(t2, w2, r) := interp C p1 w1 in
  (t1 ++ t2, w2, r).
Proof.
  revert w. induction p as [a|e|X c k IH]; intros w; cbn; try reflexivity.
  destruct (awaited c); cbn.
  - destruct (handle C c w) as [w1 r].
    destruct (interp C (k r) w1) as [[t w2] a]. reflexivity.
  - destruct (handle C c w) as [w1 r]. rewrite (IH r w1).
    destruct (advance C (k r) w1) as [[t1 w2] p1].
    destruct (interp C p1 w2) as [[t2 w3] a]. reflexivity.
Qed.

Lemma resume_interp {A : Type} (p : Prog A) (w : World C) :
  interp C p w =
  let '(t1, w1, p1) := resume C p w in
  let '(t2, w2, r) := interp C p1 w1 in
  (t1 ++ t2, w2, r).
Proof.
  destruct p as [a|e|X c k]; cbn; try reflexivity.
  destruct (handle C c w) as [w1 r]. rewrite (advance_interp (k r) w1).
  destruct (advance C (k r) w1) as [[t1 w2] p1].
  destruct (interp C p1 w2) as [[t2 w3] a]. reflexivity.
Qed.

(** *** [relaySetProof] *)

Lemma relaySetProof_run (hello : string) (w : World C) t w' r :
  interp C (relaySetProof PRIVATE_KEY hello) w = (t, w', r) ->
  r = Returned tt
  /\ files w' = files w
  /\ (file_reads t = [] /\ counter_reads t = [] /\ verify_calls t = []
      /\ nonce_reads t = [] /\ sends t = [] /\ existsb is_write t = false
      /\ caught_in_verifyProof t = None)
  /\ Forall (fun tx => tx_nonce tx = None) (submissions t)
  /\ (created t = [] \/ created t = [hello])
  /\ (caught_in_relaySetProof t = None ->
      created t = [hello] /\ exists txData, submissions t = [txData]).
Proof.
  destruct w as [fs x]. unfold relaySetProof.
  run; intros [= <- <- <-]; cbn;
    (split; [reflexivity|]); (split; [reflexivity|]);
    (split; [repeat split; reflexivity|]);
    (split; [repeat constructor|]);
    (split; [first [left; reflexivity | right; reflexivity]|]);
    first [discriminate | intros _; split; [reflexivity|eexists; reflexivity]].
Qed.

(** *** [verifyProof] *)

Lemma verifyProof_run (w : World C) t w' r :
  interp C (verifyProof PRIVATE_KEY) w = (t, w', r) ->
  r = Returned tt
  /\ files w' = files w
  /\ (created t = [] /\ submissions t = [] /\ nonce_reads t = []
      /\ sends t = [] /\ existsb is_write t = false
      /\ caught_in_relaySetProof t = None)
  /\ (forall path b, In (path, b) (file_reads t) ->
      path = PROOF_PATH /\ files w !! PROOF_PATH = Some b)
  /\ (caught_in_verifyProof t = None ->
      exists counter artifact,
        files w !! PROOF_PATH = Some artifact
        /\ file_reads t = [(PROOF_PATH, artifact)]
        /\ counter_reads t = [counter]
        /\ verify_calls t
           = [(minus_one (Number_of counter), commitment_of artifact)]).
Proof.
  destruct w as [fs x]. unfold verifyProof.
  run; intros [= <- <- <-]; cbn;
    (split; [reflexivity|]); (split; [reflexivity|]);
    (split; [repeat split; reflexivity|]);
    (split; [intros ? ? HIn; cbn in HIn;
             first [contradiction
                   | destruct HIn as [[= <- <-]|[]]; split; reflexivity]|]);
    first [discriminate | intros _; eexists _, _; repeat split; reflexivity].
Qed.

(** *** [proof] and the route handler, stage by stage *)

(** Every run of the handler is one of four: the command fails, the
    artifact cannot be read, the dump to [test.txt] fails, or the
    artifact is hashed and then [relaySetProof], [verifyProof] and the
    reply follow, whatever the two functions caught. *)
Lemma verified_chain_run (req : request) (w : World C) t w' r :
  interp C (verified_chain PRIVATE_KEY req) w = (t, w', r) ->
  match handle C (exec PROVE_COMMAND) w with
  | (w1, Thrown e) =>
    t = [Ev (exec PROVE_COMMAND) (Thrown e)] /\ r = Thrown e /\ w' = w1
  | (w1, Returned (stdout, stderr)) =>
    match files w1 !! PROOF_PATH with
    | None =>
      t = [Ev (exec PROVE_COMMAND) (Returned (stdout, stderr));
           output_log stdout stderr req;
           Ev (readFileSync PROOF_PATH)
              (Thrown (FsError "ENOENT" PROOF_PATH))]
      /\ r = Thrown (FsError "ENOENT" PROOF_PATH)
      /\ w' = w1
    | Some artifact =>
      match write_error C "test.txt" (outside w1) with
      | Some e =>
        t = [Ev (exec PROVE_COMMAND) (Returned (stdout, stderr));
             output_log stdout stderr req;
             Ev (readFileSync PROOF_PATH) (Returned artifact);
             Ev (writeFileSync "test.txt" (Buffer_toString artifact))
                (Thrown e)]
        /\ r = Thrown e
        /\ w' = w1
      | None =>
        exists t_relay w2 t_verify,
          interp C (relaySetProof PRIVATE_KEY (commitment_of artifact))
                 (Build_World C
                    (<["test.txt" := utf8ToBytes (Buffer_toString artifact)]>
                       (files w1))
                    (outside w1))
          = (t_relay, w2, Returned tt)
          /\ interp C (verifyProof PRIVATE_KEY) w2 = (t_verify, w', Returned tt)
          /\ t = hashed_events stdout stderr req artifact
                   ++ t_relay ++ t_verify ++ reply_events req
          /\ r = Returned tt
      end
    end
  end.
Proof.
  destruct w as [fs x]. unfold verified_chain, proof.
  cbn. destruct (run_command C PROVE_COMMAND x fs) as [[x1 fs1] [[so se]|e]];
    cbn; [|intros [= <- <- <-]; auto].
  destruct (fs1 !! PROOF_PATH) as [artifact|] eqn:Hread; cbn;
    [|intros [= <- <- <-]; auto].
  destruct (write_error C "test.txt" x1) as [e|]; cbn;
    [intros [= <- <- <-]; auto|].
  change (bind ?f ?p) with (p ≫= f).
  rewrite !interp_bind.
  destruct (interp C (relaySetProof _ _) _) as [[t_relay w2] rr] eqn:Hrelay.
  destruct (relaySetProof_run _ _ _ _ _ Hrelay) as [-> _]. cbn.
  rewrite !interp_bind.
  destruct (interp C (verifyProof _) w2) as [[t_verify w3] rv] eqn:Hverify.
  destruct (verifyProof_run _ _ _ _ Hverify) as [-> _]. cbn.
  intros [= <- <- <-]. exists t_relay, w2, t_verify.
  repeat split; try assumption.
  unfold hashed_events, reply_events, output_log, commitment_of. cbn.
  rewrite app_nil_r. reflexivity.
Qed.

End Runs.

(* ===================================================================== *)
(** ** Runs against any answers, and the event loop *)
(* ===================================================================== *)

Section AllPaths.

Context (C : Collaborators).


Lemma handle_possible {X : Type} (c : Eff X) (w : World C) :
  possible c (handle C c w).2.
Proof.
  destruct c; cbn; first [exact I | reflexivity].
Qed.

(** A request served alone is one of the runs. *)
Lemma all_paths_interp {A : Type} (p : Prog A) :
  forall (P : trace -> answer A -> Prop) (w : World C),
    all_paths p P ->
    let '(t, _, r) := interp C p w in P t r.
Proof.
  induction p as [a|e|X c k IH]; intros P w Hp; cbn; auto.
  pose proof (handle_possible c w) as Hr.
  destruct (handle C c w) as [w1 r]. cbn in Hr.
  specialize (IH r _ w1 (Hp r Hr)).
  destruct (interp C (k r) w1) as [[t w2] a]. exact IH.
Qed.




(** *** Tasks on the event loop *)





End AllPaths.

Section HandlerPaths.

Context (PRIVATE_KEY : option string).




End HandlerPaths.

(* ===================================================================== *)
(** ** [weiCounter - 1] *)
(* ===================================================================== *)

(** An integer up to [2^53] is a double. *)
Lemma nearest_double_exact (n : Z) :
  0 <= n <= 2 ^ 53 -> nearest_double n = n.
Proof.
  intros Hn. destruct (Z.eq_dec n (2 ^ 53)) as [->|Hne];
    [vm_compute; reflexivity|].
  unfold nearest_double.
  assert (Hlog : Z.log2 n - 52 <= 0).
  { destruct (Z.eq_dec n 0) as [->|]; [cbn; lia|].
    assert (Z.log2 n < 53) by (apply Z.log2_lt_pow2; lia). lia. }
  apply Z.leb_le in Hlog. rewrite Hlog. reflexivity.
Qed.

Lemma Number_of_exact (z : Z) :
  - (2 ^ 53) <= z <= 2 ^ 53 -> Number_of z = Finite z.
Proof.
  intros Hz. unfold Number_of. rewrite nearest_double_exact by lia.
  assert (H : (2 ^ 1024 <=? Z.abs z) = false).
  { apply Z.leb_gt. apply Z.le_lt_trans with (2 ^ 53); [lia|]. reflexivity. }
  rewrite H. f_equal. lia.
Qed.

(** Up to [2^53] the subtraction in doubles is the subtraction of the
    integers. *)
Lemma minus_one_exact (c : Z) :
  0 <= c <= 2 ^ 53 -> minus_one (Number_of c) = Finite (c - 1).
Proof.
  intros Hc. rewrite Number_of_exact by lia. cbn [minus_one].
  apply Number_of_exact. lia.
Qed.

(* ===================================================================== *)
(** ** The hasher on a typed array *)
(* ===================================================================== *)

(** A typed array has no [words] and no [sigBytes]: nothing of it reaches
    the hasher's buffer, and the digest is that of the padding alone. *)
Lemma SHA256_of_typed_array (b : bytes) :
  CryptoJS.SHA256 (CryptoJS.MTypedArray b)
  = CryptoJS.SHA256 (CryptoJS.MTypedArray []).
Proof. reflexivity. Qed.

Lemma hashMessage_value (message : js_string) :
  hashMessage message
  = "0x4ea5c508a6566e76240543f8feb06fd457777be39549c4016436afda65d2330e".
Proof.
  unfold hashMessage. rewrite SHA256_of_typed_array. vm_compute. reflexivity.
Qed.

(* ===================================================================== *)
(** ** The statements of the design document *)
(* ===================================================================== *)

Lemma triple_eta {A B D : Type} (x : A * B * D) : x = (x.1.1, x.1.2, x.2).
Proof. destruct x as [[a b] d]. reflexivity. Qed.

Section RoundTrip.

Context (C : Collaborators) (PRIVATE_KEY : option string).

(** What a request that is served alone and reaches [Done] looks like. *)
Lemma done_run (req : request) (w : World C) t w' r :
  interp C (verified_chain PRIVATE_KEY req) w = (t, w', r) ->
  final_state t r = Done ->
  exists artifact counter_after_submit txData before after,
    files (handle C (exec PROVE_COMMAND) w).1 !! PROOF_PATH = Some artifact
    /\ t = before ++ after
    /\ created before = [commitment_of artifact]
    /\ created after = []
    /\ submissions before = [txData]
    /\ counter_reads before = []
    /\ submissions after = []
    /\ counter_reads after = [counter_after_submit]
    /\ file_reads t = [(PROOF_PATH, artifact); (PROOF_PATH, artifact)]
    /\ verify_calls t
       = [(minus_one (Number_of counter_after_submit), commitment_of artifact)].
Proof.
  intros Hrun Hdone. apply verified_chain_run in Hrun.
  destruct (handle C (exec PROVE_COMMAND) w) as [w1 [[so se]|e]];
    [|destruct Hrun as (-> & -> & _); discriminate].
  destruct (files w1 !! PROOF_PATH) as [artifact|] eqn:Hfile;
    [|destruct Hrun as (-> & -> & _); discriminate].
  destruct (write_error C "test.txt" (outside w1)) as [e|];
    [destruct Hrun as (-> & -> & _); discriminate|].
  destruct Hrun as (t_relay & w2 & t_verify & Hrelay & Hverify & -> & ->).
  apply relaySetProof_run in Hrelay
    as (_ & Hfs & (Rr & Rc & Rv & _ & _ & _ & Rcv) & _ & _ & Hsent).
  apply verifyProof_run in Hverify
    as (_ & _ & (Vc & Vs & _ & _ & _ & Vcr) & _ & Hverified).
  unfold final_state in Hdone.
  autorewrite with trace_app in Hdone. cbn in Hdone.
  destruct (caught_in_relaySetProof t_relay); [discriminate|].
  rewrite Vcr, Rcv in Hdone. cbn in Hdone.
  destruct (caught_in_verifyProof t_verify); [discriminate|].
  destruct (Hsent eq_refl) as (Hcreated & txData & Hsub).
  destruct (Hverified eq_refl)
    as (counter & artifact' & Hfile' & Hreads & Hcounter & Hcalls).
  rewrite Hfs in Hfile'. cbn in Hfile'.
  rewrite lookup_insert_ne in Hfile' by (unfold PROOF_PATH; discriminate).
  rewrite Hfile in Hfile'. injection Hfile' as <-.
  exists artifact, counter, txData,
    (hashed_events so se req artifact ++ t_relay), (t_verify ++ reply_events req).
  split; [exact Hfile|].
  autorewrite with trace_app.
  rewrite Hcreated, Hsub, Rc, Vc, Vs, Hcounter, Rr, Hreads, Rv, Hcalls.
  rewrite <- app_assoc. repeat split; reflexivity.
Qed.




(** *** What the two [catch] blocks catch *)




End RoundTrip.



(** The scenario of the design document: the counter is 5 before the
    submission and 6 after it, and [verify_proof(5, commitment)] finds the
    commitment the request has just stored. *)
Example counter_five_then_six :
  final_state run0.1.1 run0.2 = Done
  /\ length (mined node0) = 5%nat
  /\ counter_reads run0.1.1 = [6]
  /\ verify_calls run0.1.1 = [(Finite 5, commitment_of (artifact 0))]
  /\ last run0.1.1
     = Some (Ev (res_send
                   {| message :=
                        "0x18747BE67c5886881075136eb678cEADaf808028 setted hello to  hola" |})
                (Returned tt))
  /\ In (Ev (console_log [LBool true]) (Returned tt)) run0.1.1.
Proof.
  vm_compute. repeat split; try reflexivity.
  repeat (first [left; reflexivity | right]).
Qed.



(* --------------------------------------------------------------------- *)
(** *** The hasher *)
(* --------------------------------------------------------------------- *)

(** The first half of C8: whatever the input, [hashMessage] returns [0x]
    followed by 64 hexadecimal digits. *)
Lemma hashMessage_fixed_form (message : js_string) :
  exists digest : string,
    hashMessage message = "0x" +:+ digest
    /\ String.length digest = 64%nat
    /\ forallb is_hex_digit (list_ascii_of_string digest) = true.
Proof.
  rewrite hashMessage_value. eexists. split; [reflexivity|].
  split; vm_compute; reflexivity.
Qed.

(** C8 at the empty input: [hashMessage("")] is not the commitment of the
    hash of zero bytes. *)
Theorem hashMessage_of_empty_input :
  hashMessage []
  = "0x4ea5c508a6566e76240543f8feb06fd457777be39549c4016436afda65d2330e"
  /\ "0x" +:+ CryptoJS.sha256_hex []
     = "0xe3b0c44298fc1c149afbf4c8996fb92427ae41e4649b934ca495991b7852b855"
  /\ hashMessage [] <> "0x" +:+ CryptoJS.sha256_hex [].
Proof.
  split; [apply hashMessage_value|].
  split; [vm_compute; reflexivity|].
  rewrite hashMessage_value. vm_compute. discriminate.
Qed.

(** The hasher itself is SHA-256 when it is given a [WordArray]. *)
Example sha256_abc :
  CryptoJS.sha256_hex (Stub.ascii_bytes "abc")
  = "ba7816bf8f01cfea414140de5dae2223b00361a396177a9cb410ff61f20015ad".
Proof. vm_compute. reflexivity. Qed.

Example sha256_two_blocks :
  CryptoJS.sha256_hex
    (Stub.ascii_bytes "abcdbcdecdefdefgefghfghighijhijkijkljklmklmnlmnomnopnopq")
  = "248d6a61d20638b8e5c026930c3e6039a33ce45964ff2167f6ecedd419db06c1".
Proof. vm_compute. reflexivity. Qed.

Section Determinism.

Context (C : Collaborators) (PRIVATE_KEY : option string).

(** Whatever is given to [create_proof] is the hash of the artifact the
    request read first. *)
Lemma created_is_hash (req : request) (w : World C) t w' r :
  interp C (verified_chain PRIVATE_KEY req) w = (t, w', r) ->
  forall c, In c (created t) ->
  exists artifact,
    head (file_reads t) = Some (PROOF_PATH, artifact)
    /\ c = commitment_of artifact.
Proof.
  intros Hrun c Hc. apply verified_chain_run in Hrun.
  destruct (handle C (exec PROVE_COMMAND) w) as [w1 [[so se]|e]];
    [|destruct Hrun as (-> & -> & _); destruct Hc].
  destruct (files w1 !! PROOF_PATH) as [artifact|];
    [|destruct Hrun as (-> & -> & _); destruct Hc].
  destruct (write_error C "test.txt" (outside w1)) as [e|];
    [destruct Hrun as (-> & -> & _); destruct Hc|].
  destruct Hrun as (t_relay & w2 & t_verify & Hrelay & Hverify & -> & ->).
  apply relaySetProof_run in Hrelay as (_ & _ & _ & _ & Rcreated & _).
  apply verifyProof_run in Hverify as (_ & _ & (Vc & _) & _).
  exists artifact. split; [reflexivity|].
  autorewrite with trace_app in Hc. rewrite Vc in Hc. cbn in Hc.
  rewrite app_nil_r in Hc.
  destruct Rcreated as [Rc|Rc]; rewrite Rc in Hc; cbn in Hc;
    [destruct Hc|destruct Hc as [<-|[]]; reflexivity].
Qed.

End Determinism.

(** C7. [hashMessage] depends on nothing but its argument: equal messages
    give equal commitments, and so do equal artifacts, in any two requests,
    whatever the collaborators do, whatever the node's state, the key and
    the query parameters. *)
Theorem hash_deterministic :
  (forall B1 B2 : js_string, B1 = B2 -> hashMessage B1 = hashMessage B2)
  /\ (forall (C1 C2 : Collaborators) (KEY1 KEY2 : option string)
             (req1 req2 : request) (w1 : World C1) (w2 : World C2)
             t1 w1' r1 t2 w2' r2 artifact c1 c2,
        interp C1 (verified_chain KEY1 req1) w1 = (t1, w1', r1) ->
        interp C2 (verified_chain KEY2 req2) w2 = (t2, w2', r2) ->
        head (file_reads t1) = Some (PROOF_PATH, artifact) ->
        head (file_reads t2) = Some (PROOF_PATH, artifact) ->
        In c1 (created t1) -> In c2 (created t2) ->
        c1 = c2).
Proof.
  split; [intros B1 B2 ->; reflexivity|].
  intros C1 C2 KEY1 KEY2 req1 req2 w1 w2 t1 w1' r1 t2 w2' r2 artifact c1 c2
         H1 H2 Ha1 Ha2 Hc1 Hc2.
  destruct (created_is_hash _ _ _ _ _ _ _ H1 c1 Hc1) as (a1 & Hr1 & ->).
  destruct (created_is_hash _ _ _ _ _ _ _ H2 c2 Hc2) as (a2 & Hr2 & ->).
  congruence.
Qed.

(** Two requests against different nodes, one accepting transactions and
    one rejecting them, with the same artifact. *)
Lemma hash_deterministic_witness :
  commitment_of (Stub.artifact 0) = commitment_of (Stub.artifact 0).
Proof.
  apply (proj2 hash_deterministic
               Stub.collaborators Stub.collaborators Stub.KEY Stub.KEY
               Stub.request0 Stub.request0
               Stub.world0 Stub.world_node_rejects
               run0.1.1 run0.1.2 run0.2
               run_rejected.1.1 run_rejected.1.2 run_rejected.2
               (Stub.artifact 0)).
  - exact (triple_eta run0).
  - exact (triple_eta run_rejected).
  - vm_compute. reflexivity.
  - vm_compute. reflexivity.
  - vm_compute. left. reflexivity.
  - vm_compute. left. reflexivity.
Defined.

(* --------------------------------------------------------------------- *)
(** *** What the pipeline does not look at *)
(* --------------------------------------------------------------------- *)

Section Unused.

Context (C : Collaborators) (PRIVATE_KEY : option string).

#[local] Arguments hashed_events : simpl never.
#[local] Arguments reply_events : simpl never.

(** C10. Two requests that agree on [hello] and [helloSetter] and differ
    in [signature] make the same calls with the same answers, apart from
    the lines written with [console.log]: the same commitment, the same
    transaction, the same [verify_proof] call, the same response body,
    the same final state and the same world afterwards. *)
Theorem signature_is_only_logged (req1 req2 : request) (w : World C)
        t1 w1 r1 t2 w2 r2 :
  param req1 "hello" = param req2 "hello" ->
  param req1 "helloSetter" = param req2 "helloSetter" ->
  interp C (verified_chain PRIVATE_KEY req1) w = (t1, w1, r1) ->
  interp C (verified_chain PRIVATE_KEY req2) w = (t2, w2, r2) ->
  silent t1 = silent t2
  /\ created t1 = created t2
  /\ submissions t1 = submissions t2
  /\ verify_calls t1 = verify_calls t2
  /\ response t1 = response t2
  /\ final_state t1 r1 = final_state t2 r2
  /\ w1 = w2.
Proof.
  intros Hhello Hsetter Hrun1 Hrun2.
  apply verified_chain_run in Hrun1. apply verified_chain_run in Hrun2.
  destruct (handle C (exec PROVE_COMMAND) w) as [w' [[so se]|e]].
  2: { destruct Hrun1 as (-> & -> & ->), Hrun2 as (-> & -> & ->). repeat split; reflexivity. }
  destruct (files w' !! PROOF_PATH) as [artifact|].
  2: { destruct Hrun1 as (-> & -> & ->), Hrun2 as (-> & -> & ->). repeat split; reflexivity. }
  destruct (write_error C "test.txt" (outside w')) as [e|].
  { destruct Hrun1 as (-> & -> & ->), Hrun2 as (-> & -> & ->). repeat split; reflexivity. }
  destruct Hrun1 as (t_relay & wr & t_verify & Hrelay & Hverify & -> & ->).
  destruct Hrun2 as (t_relay' & wr' & t_verify' & Hrelay' & Hverify' & -> & ->).
  rewrite Hrelay in Hrelay'. injection Hrelay' as <- <-.
  rewrite Hverify in Hverify'. injection Hverify' as <- <-.
  assert (Hreply : reply_events req1 = reply_events req2)
    by (unfold reply_events; rewrite Hhello, Hsetter; reflexivity).
  unfold final_state, response. autorewrite with trace_app.
  rewrite Hreply. repeat split; reflexivity.
Qed.

(** *** The verdict of [verify_proof] *)

Lemma relaySetProof_with_verdict (verdict : bool) (hello : string)
      (w : World C) :
  interp (with_verdict verdict C) (relaySetProof PRIVATE_KEY hello)
         (recast verdict w)
  = let '(t, w', r) := interp C (relaySetProof PRIVATE_KEY hello) w in
    (t, recast verdict w', r).
Proof.
  destruct w as [fs x]. unfold relaySetProof, recast. run; reflexivity.
Qed.

Lemma verifyProof_with_verdict (verdict : bool) (w : World C) :
  let '(t1, w1, r1) := interp C (verifyProof PRIVATE_KEY) w in
  let '(t2, w2, r2) :=
    interp (with_verdict verdict C) (verifyProof PRIVATE_KEY)
           (recast verdict w) in
  w2 = recast verdict w1
  /\ r1 = r2
  /\ caught_in_verifyProof t1 = caught_in_verifyProof t2
  /\ verify_calls t1 = verify_calls t2
  /\ counter_reads t1 = counter_reads t2
  /\ file_reads t1 = file_reads t2
  /\ sends t1 = sends t2.
Proof.
  destruct w as [fs x]. unfold verifyProof, recast.
  run; repeat split; reflexivity.
Qed.

(** [relaySetProof] never calls [verify_proof]. *)
Lemma relaySetProof_no_verdict (hello : string) (w : World C) t w' r :
  interp C (relaySetProof PRIVATE_KEY hello) w = (t, w', r) ->
  verdicts t = [].
Proof.
  destruct w as [fs x]. unfold relaySetProof.
  run; intros [= <- <- <-]; reflexivity.
Qed.

(** Once [verify_proof] has returned, [verifyProof] logs the boolean and
    ends without having caught anything. *)
Lemma verifyProof_verdicts (verdict : bool) (w : World C) :
  let '(t1, _, _) := interp C (verifyProof PRIVATE_KEY) w in
  let '(t2, _, _) :=
    interp (with_verdict verdict C) (verifyProof PRIVATE_KEY)
           (recast verdict w) in
  forall b, verdicts t1 = [b] ->
    verdicts t2 = [verdict]
    /\ caught_in_verifyProof t1 = None
    /\ caught_in_verifyProof t2 = None
    /\ last t1 = Some (Ev (console_log [LBool b]) (Returned tt))
    /\ last t2 = Some (Ev (console_log [LBool verdict]) (Returned tt)).
Proof.
  destruct w as [fs x]. unfold verifyProof, recast.
  run; intros returned Hb; cbn in Hb; try discriminate Hb;
    injection Hb as <-; repeat split; reflexivity.
Qed.

(** C9. Replace the boolean every [verify_proof] call returns by any
    other: the request ends in the same state, the caller gets the same
    response, the same commitment and transaction went to the chain, the
    same [verify_proof] call was made, and the world is left the same.
    And whenever the [verify_proof] call of a request returns, whatever
    the boolean, [verifyProof] has caught nothing, the handler returns and
    sends its response, and the request is [Done] unless [relaySetProof]
    had caught an error before. *)
Theorem verdict_is_ignored (verdict : bool) (req : request) (w : World C)
        t1 w1 r1 t2 w2 r2 :
  interp C (verified_chain PRIVATE_KEY req) w = (t1, w1, r1) ->
  interp (with_verdict verdict C) (verified_chain PRIVATE_KEY req)
         (recast verdict w) = (t2, w2, r2) ->
  final_state t1 r1 = final_state t2 r2
  /\ response t1 = response t2
  /\ r1 = r2
  /\ created t1 = created t2
  /\ submissions t1 = submissions t2
  /\ verify_calls t1 = verify_calls t2
  /\ w2 = recast verdict w1
  /\ forall b, verdicts t1 = [b] ->
       verdicts t2 = [verdict]
       /\ caught_in_verifyProof t1 = None
       /\ caught_in_verifyProof t2 = None
       /\ r1 = Returned tt
       /\ response t1
          = Some {| message :=
                      to_string (param req "helloSetter")
                        +:+ " setted hello to " +:+ " "
                        +:+ to_string (param req "hello") |}
       /\ (caught_in_relaySetProof t1 = None ->
           final_state t1 r1 = Done /\ final_state t2 r2 = Done).
Proof.
  intros Hrun1 Hrun2.
  apply verified_chain_run in Hrun1. apply verified_chain_run in Hrun2.
  destruct w as [fs x]. cbn in Hrun1, Hrun2.
  destruct (run_command C PROVE_COMMAND x fs) as [[x1 fs1] [[so se]|e]].
  2: { destruct Hrun1 as (-> & -> & ->), Hrun2 as (-> & -> & ->).
       repeat split; try reflexivity; discriminate. }
  cbn in Hrun1, Hrun2.
  destruct (fs1 !! PROOF_PATH) as [artifact|].
  2: { destruct Hrun1 as (-> & -> & ->), Hrun2 as (-> & -> & ->).
       repeat split; try reflexivity; discriminate. }
  destruct (write_error C "test.txt" x1) as [e|].
  { destruct Hrun1 as (-> & -> & ->), Hrun2 as (-> & -> & ->).
    repeat split; try reflexivity; discriminate. }
  destruct Hrun1 as (t_relay & wr & t_verify & Hrelay & Hverify & -> & ->).
  destruct Hrun2 as (t_relay' & wr' & t_verify' & Hrelay' & Hverify' & -> & ->).
  pose proof (relaySetProof_with_verdict verdict (commitment_of artifact)
                (Build_World C
                   (<["test.txt" := utf8ToBytes (Buffer_toString artifact)]> fs1)
                   x1)) as Hsame.
  rewrite Hrelay in Hsame. unfold recast in Hsame at 1. cbn in Hsame.
  rewrite Hsame in Hrelay'. injection Hrelay' as <- <-.
  pose proof (verifyProof_with_verdict verdict wr) as Hv.
  pose proof (verifyProof_verdicts verdict wr) as Hverd.
  rewrite Hverify, Hverify' in Hv, Hverd.
  destruct Hv as (-> & _ & Hcaught & Hcalls & _ & _ & Hsends).
  pose proof (relaySetProof_no_verdict _ _ _ _ _ Hrelay) as Rverd.
  apply relaySetProof_run in Hrelay
    as (_ & _ & (_ & _ & _ & _ & Rs & _ & Rcv) & _).
  apply verifyProof_run in Hverify as (_ & _ & (Vc & Vs & _ & _ & _ & Vcr) & _).
  apply verifyProof_run in Hverify'
    as (_ & _ & (Vc' & Vs' & _ & Vsd' & _ & Vcr') & _).
  assert (Hh : verdicts (hashed_events so se req artifact) = []) by reflexivity.
  assert (Hp : verdicts (reply_events req) = []) by reflexivity.
  assert (Hhv : caught_in_verifyProof (hashed_events so se req artifact) = None)
    by reflexivity.
  assert (Hpv : caught_in_verifyProof (reply_events req) = None) by reflexivity.
  assert (Hhr : caught_in_relaySetProof (hashed_events so se req artifact) = None)
    by reflexivity.
  assert (Hpr : caught_in_relaySetProof (reply_events req) = None) by reflexivity.
  assert (Hhs : sends (hashed_events so se req artifact) = []) by reflexivity.
  unfold final_state, response. autorewrite with trace_app.
  rewrite Hcaught, Hcalls, Hsends, Vc, Vs, Vc', Vs', Vcr, Vcr'.
  do 7 (split; [reflexivity|]).
  rewrite Hh, Hp, Rverd, Hhv, Hpv, Hhr, Hpr, Rcv, Hhs, Rs, Vsd'. cbn.
  intros b Hb. rewrite app_nil_r in Hb.
  destruct (Hverd b Hb) as (Hv2 & _ & Hcv' & _).
  rewrite Hv2, Hcv'. cbn.
  do 5 (split; [reflexivity|]).
  destruct (caught_in_relaySetProof t_relay); [discriminate|].
  intros _. split; reflexivity.
Qed.

End Unused.

Lemma signature_is_only_logged_witness :
  silent run0.1.1 = silent run0_resigned.1.1
  /\ created run0.1.1 = created run0_resigned.1.1
  /\ submissions run0.1.1 = submissions run0_resigned.1.1
  /\ verify_calls run0.1.1 = verify_calls run0_resigned.1.1
  /\ response run0.1.1 = response run0_resigned.1.1
  /\ final_state run0.1.1 run0.2 = final_state run0_resigned.1.1 run0_resigned.2
  /\ run0.1.2 = run0_resigned.1.2.
Proof.
  apply (signature_is_only_logged Stub.collaborators Stub.KEY
           Stub.request0 request0_resigned Stub.world0).
  - vm_compute. reflexivity.
  - vm_compute. reflexivity.
  - exact (triple_eta run0).
  - exact (triple_eta run0_resigned).
Defined.

Lemma verdict_is_ignored_witness :
  verdicts run0.1.1 = [true]
  /\ verdicts run0_refuted.1.1 = [false]
  /\ final_state run0.1.1 run0.2 = Done
  /\ final_state run0_refuted.1.1 run0_refuted.2 = Done
  /\ response run0.1.1 = response run0_refuted.1.1
  /\ run0.2 = run0_refuted.2
  /\ created run0.1.1 = created run0_refuted.1.1
  /\ submissions run0.1.1 = submissions run0_refuted.1.1
  /\ verify_calls run0.1.1 = verify_calls run0_refuted.1.1
  /\ run0_refuted.1.2 = recast false run0.1.2.
Proof.
  destruct (verdict_is_ignored Stub.collaborators Stub.KEY false
              Stub.request0 Stub.world0 _ _ _ _ _ _
              (triple_eta run0) (triple_eta run0_refuted))
    as (Hstate & Hresponse & Hr & Hc & Hs & Hv & Hw & Hdone).
  assert (Hb : verdicts run0.1.1 = [true]) by (vm_compute; reflexivity).
  destruct (Hdone true Hb) as (Hb' & _ & _ & _ & _ & Hd).
  assert (Hrelay : caught_in_relaySetProof run0.1.1 = None)
    by (vm_compute; reflexivity).
  destruct (Hd Hrelay) as [Hd1 Hd2].
  repeat split; assumption.
Defined.

(* --------------------------------------------------------------------- *)
(** *** Requests in flight together *)
(* --------------------------------------------------------------------- *)

(** C6 fails on the code. Both requests end [Done], but the second
    prover run overwrote [./ezkl/1l_relu.pf] while the first request was
    waiting for the node, and the first request's [verifyProof] then read
    the second request's artifact. *)
Lemma overlapping_requests_share_the_artifact :
  match event_loop Stub.collaborators Stub.world0 overlapping_schedule with
  | ([A; B], _) =>
    settled A = Some (Returned tt)
    /\ settled B = Some (Returned tt)
    /\ final_state (history A) (Returned tt) = Done
    /\ final_state (history B) (Returned tt) = Done
    /\ file_reads (history A)
       = [(PROOF_PATH, Stub.artifact 0); (PROOF_PATH, Stub.artifact 1)]
    /\ file_reads (history B)
       = [(PROOF_PATH, Stub.artifact 1); (PROOF_PATH, Stub.artifact 1)]
    /\ Stub.artifact 0 <> Stub.artifact 1
  | _ => False
  end.
Proof. vm_compute. repeat split; try reflexivity. discriminate. Qed.

Section EventLoop.

Context (C : Collaborators).

(** A task that is resumed until it ends has done what the handler
    does when it is served alone from the same world. *)
Lemma resume_many (n : nat) :
  forall (tasks : list task) (w : World C) (i : nat) (tk : task),
    tasks !! i = Some tk ->
    exists tk' w',
      fold_left (loop_step C) (repeat (Complete i) n) (tasks, w)
      = (<[i := tk']> tasks, w')
      /\ forall r, settled tk' = Some r ->
         exists t, interp C (rest tk) w = (t, w', r)
                   /\ history tk' = history tk ++ t.
Proof.
  induction n as [|n IH]; intros tasks w i tk Hi.
  - exists tk, w. split.
    + cbn. rewrite list_insert_id by exact Hi. reflexivity.
    + intros r Hr. exists []. rewrite app_nil_r. split; [|reflexivity].
      unfold settled in Hr.
      destruct (rest tk); cbn in *;
        first [discriminate | injection Hr as <-; reflexivity].
  - cbn [repeat fold_left loop_step]. rewrite Hi.
    pose proof (resume_interp C (rest tk) w) as Hstep.
    destruct (resume C (rest tk) w) as [[t1 w1] p1].
    assert (Hlt : (i < length tasks)%nat) by (eapply lookup_lt_Some; eauto).
    destruct (IH (<[i := {| rest := p1; history := history tk ++ t1 |}]> tasks)
                 w1 i {| rest := p1; history := history tk ++ t1 |})
      as (tk' & w' & Hfold & Hend).
    { apply list_lookup_insert_eq. exact Hlt. }
    exists tk', w'. split.
    + rewrite Hfold, list_insert_insert_eq. reflexivity.
    + intros r Hr. destruct (Hend r Hr) as (t2 & Hrest & Hhist).
      cbn in Hrest, Hhist. rewrite Hrest in Hstep.
      exists (t1 ++ t2). split; [exact Hstep|].
      rewrite Hhist, app_assoc. reflexivity.
Qed.

(** Two requests, the second arriving after the first has been resumed
    [n1] times; if both handlers have ended, the first had ended before
    the second arrived, and each did what it does when served alone. *)
Lemma one_after_the_other (p1 p2 : Prog unit) (n1 n2 : nat)
      (w w' : World C) (A B : task) (rA rB : answer unit) :
  event_loop C w
    (Arrive p1 :: repeat (Complete 0) n1
       ++ Arrive p2 :: repeat (Complete 1) n2)
    = ([A; B], w') ->
  settled A = Some rA ->
  settled B = Some rB ->
  exists wA,
    interp C p1 w = (history A, wA, rA)
    /\ interp C p2 wA = (history B, w', rB).
Proof.
  unfold event_loop. cbn [fold_left loop_step].
  pose proof (advance_interp C p1 w) as Hadv1.
  destruct (advance C p1 w) as [[t1 w1] q1]. cbn [app].
  rewrite fold_left_app.
  destruct (resume_many n1 [{| rest := q1; history := t1 |}] w1 0
                        {| rest := q1; history := t1 |} eq_refl)
    as (tkA & wA & -> & HendA).
  cbn [fold_left loop_step list_insert app].
  pose proof (advance_interp C p2 wA) as Hadv2.
  destruct (advance C p2 wA) as [[t2 w2] q2].
  change (<[0%nat := tkA]> [{| rest := q1; history := t1 |}]
            ++ [{| rest := q2; history := t2 |}])
    with [tkA; {| rest := q2; history := t2 |}].
  destruct (resume_many n2 [tkA; {| rest := q2; history := t2 |}] w2 1
                        {| rest := q2; history := t2 |} eq_refl)
    as (tkB & wB & -> & HendB).
  change (<[1%nat := tkB]> [tkA; {| rest := q2; history := t2 |}])
    with [tkA; tkB].
  intros [= <- <- <-] HA HB.
  destruct (HendA rA HA) as (ta & Hta & Hha).
  destruct (HendB rB HB) as (tb & Htb & Hhb).
  cbn in Hta, Hha, Htb, Hhb.
  rewrite Hta in Hadv1. rewrite Htb in Hadv2.
  exists wA. rewrite Hha, Hhb. split; assumption.
Qed.

Context (PRIVATE_KEY : option string).

(** C6, as the code has it. When the second request arrives after the
    first handler has ended, each request that reaches [Done] read, in
    [proof] and again in [verifyProof], the artifact its own prover run
    left at [./ezkl/1l_relu.pf], and gave the hash of that artifact to
    [create_proof] and to [verify_proof]. *)
Theorem requests_in_turn_are_isolated (req1 req2 : request) (n1 n2 : nat)
        (w w' : World C) (A B : task) (rA rB : answer unit) :
  event_loop C w
    (Arrive (verified_chain PRIVATE_KEY req1) :: repeat (Complete 0) n1
       ++ Arrive (verified_chain PRIVATE_KEY req2) :: repeat (Complete 1) n2)
    = ([A; B], w') ->
  settled A = Some rA ->
  settled B = Some rB ->
  exists wA,
    interp C (verified_chain PRIVATE_KEY req1) w = (history A, wA, rA)
    /\ interp C (verified_chain PRIVATE_KEY req2) wA = (history B, w', rB)
    /\ (final_state (history A) rA = Done ->
        exists artifact,
          files (handle C (exec PROVE_COMMAND) w).1 !! PROOF_PATH
            = Some artifact
          /\ file_reads (history A)
             = [(PROOF_PATH, artifact); (PROOF_PATH, artifact)]
          /\ created (history A) = [commitment_of artifact]
          /\ map snd (verify_calls (history A)) = [commitment_of artifact])
    /\ (final_state (history B) rB = Done ->
        exists artifact,
          files (handle C (exec PROVE_COMMAND) wA).1 !! PROOF_PATH
            = Some artifact
          /\ file_reads (history B)
             = [(PROOF_PATH, artifact); (PROOF_PATH, artifact)]
          /\ created (history B) = [commitment_of artifact]
          /\ map snd (verify_calls (history B)) = [commitment_of artifact]).
Proof.
  intros Hloop HA HB.
  destruct (one_after_the_other _ _ _ _ _ _ _ _ _ _ Hloop HA HB)
    as (wA & HrunA & HrunB).
  exists wA. split; [exact HrunA|]. split; [exact HrunB|].
  split; intros Hdone.
  - destruct (done_run C PRIVATE_KEY _ _ _ _ _ HrunA Hdone)
      as (a & c & tx & before & after & Hown & Ht & Hc1 & Hc2 & _ & _ & _ & _
          & Hreads & Hcalls).
    exists a. rewrite Hreads, Hcalls.
    rewrite Ht, created_app, Hc1, Hc2. repeat split; try reflexivity.
    exact Hown.
  - destruct (done_run C PRIVATE_KEY _ _ _ _ _ HrunB Hdone)
      as (a & c & tx & before & after & Hown & Ht & Hc1 & Hc2 & _ & _ & _ & _
          & Hreads & Hcalls).
    exists a. rewrite Hreads, Hcalls.
    rewrite Ht, created_app, Hc1, Hc2. repeat split; try reflexivity.
    exact Hown.
Qed.

End EventLoop.

Lemma two_tasks {W : Type} (x : list task * W) :
  length x.1 = 2%nat ->
  x = ([default no_task (x.1 !! 0%nat); default no_task (x.1 !! 1%nat)], x.2).
Proof.
  destruct x as [[|a [|b [|c l]]] w]; cbn; intros [=]. reflexivity.
Qed.

Lemma requests_in_turn_are_isolated_witness :
  file_reads (history first_task)
    = [(PROOF_PATH, Stub.artifact 0); (PROOF_PATH, Stub.artifact 0)]
  /\ file_reads (history second_task)
     = [(PROOF_PATH, Stub.artifact 1); (PROOF_PATH, Stub.artifact 1)].
Proof.
  destruct (requests_in_turn_are_isolated Stub.collaborators Stub.KEY
              Stub.request0 request0_resigned 6 6 Stub.world0 in_turn.2
              first_task second_task (Returned tt) (Returned tt))
    as (wA & HA & HB & HdoneA & HdoneB).
  - apply (two_tasks in_turn). vm_compute. reflexivity.
  - vm_compute. reflexivity.
  - vm_compute. reflexivity.
  - destruct HdoneA as (a & _ & Ha & _); [vm_compute; reflexivity|].
    destruct HdoneB as (b & _ & Hb & _); [vm_compute; reflexivity|].
    vm_compute. split; reflexivity.
Defined.

(* --------------------------------------------------------------------- *)
(** *** What reaches the hasher *)
(* --------------------------------------------------------------------- *)

(** **** Text round trip *)

Lemma decode_feed (bs rest : list Z) :
  forall st,
    decode st (bs ++ rest) = (feed st bs).1 ++ decode (feed st bs).2 rest.
Proof.
  induction bs as [|b bs IH]; intros st; cbn [app feed decode].
  - reflexivity.
  - destruct (step st b) as [out st']. cbn [fst snd]. rewrite IH.
    destruct (feed st' bs) as [out' st'']. cbn [fst snd].
    rewrite app_assoc. reflexivity.
Qed.

Lemma all_in_spec (P : Z -> bool) (d : nat) :
  forall lo, all_in d lo P = true ->
  forall z, lo <= z < lo + 2 ^ Z.of_nat d -> P z = true.
Proof.
  induction d as [|d IH]; intros lo Hall z Hz; cbn [all_in] in Hall.
  - change (2 ^ Z.of_nat 0) with 1 in Hz. assert (z = lo) as -> by lia.
    exact Hall.
  - apply andb_prop in Hall as [Hlow Hhigh].
    rewrite Nat2Z.inj_succ, Z.pow_succ_r in Hz by lia.
    destruct (Z_lt_ge_dec z (lo + 2 ^ Z.of_nat d)).
    + apply (IH lo Hlow). lia.
    + apply (IH _ Hhigh). lia.
Qed.

(** **** Six more bits *)

Lemma lor_shiftl_6 (acc c : Z) :
  0 <= acc -> 0 <= c < 64 -> Z.lor (Z.shiftl acc 6) c = acc * 64 + c.
Proof.
  intros Hacc Hc.
  assert (Hland : Z.land (Z.shiftl acc 6) c = 0).
  { apply Z.bits_inj'. intros n Hn. rewrite Z.land_spec, Z.bits_0.
    destruct (Z_lt_ge_dec n 6).
    - rewrite Z.shiftl_spec_low by lia. reflexivity.
    - rewrite (Z.bits_above_log2 c n), andb_false_r; [reflexivity|lia|].
      destruct (Z.eq_dec c 0) as [->|]; [cbn; lia|].
      apply Z.lt_le_trans with 6; [|lia].
      apply Z.log2_lt_pow2; lia. }
  pose proof (Z.add_lor_land (Z.shiftl acc 6) c) as Hadd.
  rewrite Hland in Hadd. rewrite Z.shiftl_mul_pow2 in * by lia.
  change (2 ^ 6) with 64 in *. lia.
Qed.

Lemma continuation_byte (c : Z) :
  0 <= c < 64 ->
  0x80 <= Z.lor 0x80 c <= 0xBF /\ Z.land (Z.lor 0x80 c) 0x3F = c.
Proof.
  intros Hc.
  assert (Hok : continuation_ok c = true).
  { apply (all_in_spec continuation_ok 6 0); [vm_compute; reflexivity|].
    change (2 ^ Z.of_nat 6) with 64. lia. }
  unfold continuation_ok in Hok.
  apply andb_prop in Hok as [Hok Heq]. apply andb_prop in Hok as [Hlo Hhi].
  apply Z.eqb_eq in Heq. lia.
Qed.

(** A continuation byte after the first one adds its six bits. *)
Lemma step_continuation (acc n c : Z) :
  0 <= acc -> 0 <= c < 64 ->
  step (Some {| code_point := acc; bytes_needed := n;
                lower := 0x80; upper := 0xBF |})
       (Z.lor 0x80 c)
  = if n =? 1 then ([acc * 64 + c], None)
    else ([], Some {| code_point := acc * 64 + c; bytes_needed := n - 1;
                      lower := 0x80; upper := 0xBF |}).
Proof.
  intros Hacc Hc. destruct (continuation_byte c Hc) as [Hrange Hlow].
  unfold step. cbn [lower upper code_point bytes_needed].
  replace ((0x80 <=? Z.lor 0x80 c) && (Z.lor 0x80 c <=? 0xBF)) with true
    by (symmetry; apply andb_true_intro; split; apply Z.leb_le; lia).
  rewrite Hlow, lor_shiftl_6 by assumption. reflexivity.
Qed.

Lemma low_bits (cp : Z) :
  0 <= cp ->
  Z.land cp 0x3F = cp mod 64 /\ Z.shiftr cp 6 = cp / 64
  /\ Z.shiftr cp 12 = Z.shiftr (cp / 64) 6
  /\ Z.shiftr cp 18 = Z.shiftr (cp / 64 / 64) 6
  /\ Z.land (Z.shiftr cp 6) 0x3F = (cp / 64) mod 64
  /\ Z.land (Z.shiftr cp 12) 0x3F = Z.land (cp / 64 / 64) 0x3F.
Proof.
  intros Hcp.
  assert (H6 : forall x, Z.shiftr x 6 = x / 64)
    by (intros x; rewrite Z.shiftr_div_pow2 by lia; reflexivity).
  assert (Hm : forall x, Z.land x 0x3F = x mod 64)
    by (intros x; change 0x3F with (Z.ones 6);
        rewrite Z.land_ones by lia; reflexivity).
  change 12 with (6 + 6). change 18 with (6 + 6 + 6).
  rewrite <- !Z.shiftr_shiftr by lia. rewrite !H6, !Hm. repeat split.
Qed.

(** **** The first two bytes of a sequence *)

Lemma pending_eq (p : pending) (cp n : Z) :
  (code_point p =? cp) && (bytes_needed p =? n)
    && (lower p =? 0x80) && (upper p =? 0xBF) = true ->
  p = {| code_point := cp; bytes_needed := n; lower := 0x80; upper := 0xBF |}.
Proof.
  intros H. apply andb_prop in H as [H Hu]. apply andb_prop in H as [H Hl].
  apply andb_prop in H as [Hc Hn]. destruct p as [c m l u]. cbn in *.
  apply Z.eqb_eq in Hu, Hl, Hc, Hn. subst. reflexivity.
Qed.

Lemma decode_encode_scalar (cp : Z) (rest : list Z) :
  scalar cp ->
  decode None (encode_scalar cp ++ rest) = cp :: decode None rest.
Proof.
  intros [Hrange Hsur].
  destruct (low_bits cp ltac:(lia)) as (Hd & Hhi & H12 & H18 & Hc & Hb).
  pose proof (Z.div_mod cp 64 ltac:(lia)) as Hcp.
  pose proof (Z.mod_pos_bound cp 64 ltac:(lia)) as Hdr.
  unfold encode_scalar.
  destruct (cp <? 0x80) eqn:E1; [apply Z.ltb_lt in E1|apply Z.ltb_ge in E1].
  { cbn [app decode step fst snd]. unfold lead.
    replace (cp <=? 0x7F) with true by (symmetry; apply Z.leb_le; lia).
    reflexivity. }
  destruct (cp <? 0x800) eqn:E2; [apply Z.ltb_lt in E2|apply Z.ltb_ge in E2].
  { assert (Hok : lead2_ok cp = true).
    { apply (all_in_spec lead2_ok 11 0); [vm_compute; reflexivity|].
      change (2 ^ Z.of_nat 11) with 2048. lia. }
    unfold lead2_ok, encode_scalar in Hok.
    replace ((0x80 <=? cp) && (cp <? 0x800)) with true in Hok
      by (symmetry; apply andb_true_intro; split;
          [apply Z.leb_le|apply Z.ltb_lt]; lia).
    replace (cp <? 0x80) with false in Hok by (symmetry; apply Z.ltb_ge; lia).
    replace (cp <? 0x800) with true in Hok by (symmetry; apply Z.ltb_lt; lia).
    rewrite decode_feed.
    destruct (feed None _) as [[|cp' [|? ?]] [?|]]; try discriminate.
    apply Z.eqb_eq in Hok as ->. reflexivity. }
  destruct (cp <? 0x10000) eqn:E3; [apply Z.ltb_lt in E3|apply Z.ltb_ge in E3].
  { set (hi := cp / 64) in *.
    assert (Hok : lead3_ok hi = true).
    { apply (all_in_spec lead3_ok 10 0); [vm_compute; reflexivity|].
      change (2 ^ Z.of_nat 10) with 1024. subst hi. lia. }
    unfold lead3_ok in Hok.
    replace ((0x20 <=? hi) && (hi <? 0x400)
             && negb ((0x360 <=? hi) && (hi <? 0x380))) with true in Hok.
    2: { symmetry. apply andb_true_intro. split.
         - apply andb_true_intro.
           split; [apply Z.leb_le|apply Z.ltb_lt]; subst hi; lia.
         - apply negb_true_iff, andb_false_iff.
           destruct (Z_lt_ge_dec hi 0x360);
             [left; apply Z.leb_gt|right; apply Z.ltb_ge]; subst hi; lia. }
    rewrite H12, Hc, Hd.
    change [Z.lor 224 (Z.shiftr hi 6); Z.lor 128 (hi mod 64);
            Z.lor 128 (cp mod 64)]
      with ([Z.lor 224 (Z.shiftr hi 6); Z.lor 128 (hi mod 64)]
              ++ [Z.lor 128 (cp mod 64)]).
    rewrite <- app_assoc, decode_feed.
    replace (hi mod 64) with (Z.land hi 0x3F)
      by (change 0x3F with (Z.ones 6); rewrite Z.land_ones by lia; reflexivity).
    destruct (feed None _) as [[|? ?] [p|]]; try discriminate.
    apply pending_eq in Hok as ->. cbn [fst snd app decode].
    rewrite step_continuation by (subst hi; lia).
    cbn. f_equal. subst hi. lia. }
  { set (hi := cp / 64) in *. set (hh := hi / 64) in *.
    pose proof (Z.div_mod hi 64 ltac:(lia)) as Hhi64.
    pose proof (Z.mod_pos_bound hi 64 ltac:(lia)) as Hcr.
    assert (Hok : lead4_ok hh = true).
    { apply (all_in_spec lead4_ok 9 0); [vm_compute; reflexivity|].
      change (2 ^ Z.of_nat 9) with 512. subst hh hi. lia. }
    unfold lead4_ok in Hok.
    replace ((0x10 <=? hh) && (hh <? 0x110)) with true in Hok
      by (symmetry; apply andb_true_intro;
          split; [apply Z.leb_le|apply Z.ltb_lt]; subst hh hi; lia).
    rewrite H18, Hb, Hc, Hd.
    change [Z.lor 240 (Z.shiftr hh 6); Z.lor 128 (Z.land hh 63);
            Z.lor 128 (hi mod 64); Z.lor 128 (cp mod 64)]
      with ([Z.lor 240 (Z.shiftr hh 6); Z.lor 128 (Z.land hh 63)]
              ++ [Z.lor 128 (hi mod 64); Z.lor 128 (cp mod 64)]).
    rewrite <- app_assoc, decode_feed.
    destruct (feed None _) as [[|? ?] [p|]]; try discriminate.
    apply pending_eq in Hok as ->. cbn [fst snd app decode].
    rewrite step_continuation by (subst hh hi; lia).
    change (2 =? 1) with false. cbn [fst snd app decode].
    rewrite step_continuation by (subst hh hi; lia).
    change (2 - 1 =? 1) with true. cbn [fst snd app].
    f_equal. subst hh hi. lia. }
Qed.

Lemma scalar_values_units (cp : Z) (rest : list Z) :
  scalar cp ->
  scalar_values (utf16_units cp ++ rest) = cp :: scalar_values rest.
Proof.
  intros [Hrange Hsur]. unfold utf16_units.
  destruct (cp <? 0x10000) eqn:E; [apply Z.ltb_lt in E|apply Z.ltb_ge in E].
  - cbn [app scalar_values]. unfold is_high, is_low.
    replace ((0xD800 <=? cp) && (cp <=? 0xDBFF)) with false
      by (symmetry; apply andb_false_iff;
          destruct (Z_lt_ge_dec cp 0xD800);
          [left; apply Z.leb_gt|right; apply Z.leb_gt]; lia).
    replace ((0xDC00 <=? cp) && (cp <=? 0xDFFF)) with false
      by (symmetry; apply andb_false_iff;
          destruct (Z_lt_ge_dec cp 0xDC00);
          [left; apply Z.leb_gt|right; apply Z.leb_gt]; lia).
    reflexivity.
  - set (x := cp - 0x10000) in *.
    assert (Hs : Z.shiftr x 10 = x / 1024)
      by (rewrite Z.shiftr_div_pow2 by lia; reflexivity).
    assert (Hl : Z.land x 0x3FF = x mod 1024)
      by (change 0x3FF with (Z.ones 10); rewrite Z.land_ones by lia;
          reflexivity).
    pose proof (Z.div_mod x 1024 ltac:(lia)) as Hx.
    pose proof (Z.mod_pos_bound x 1024 ltac:(lia)) as Hr.
    rewrite Hs, Hl. cbn [app scalar_values]. unfold is_high, is_low.
    replace ((0xD800 <=? 0xD800 + x / 1024) && (0xD800 + x / 1024 <=? 0xDBFF))
      with true
      by (symmetry; apply andb_true_intro; split; apply Z.leb_le;
          subst x; lia).
    replace ((0xDC00 <=? 0xDC00 + x mod 1024)
             && (0xDC00 + x mod 1024 <=? 0xDFFF)) with true
      by (symmetry; apply andb_true_intro; split; apply Z.leb_le; lia).
    f_equal. rewrite Z.shiftl_mul_pow2 by lia. subst x. lia.
Qed.

Lemma decode_encode (cps : list Z) :
  Forall scalar cps -> decode None (flat_map encode_scalar cps) = cps.
Proof.
  induction 1 as [|cp cps Hcp _ IH]; [reflexivity|].
  cbn [flat_map]. rewrite decode_encode_scalar, IH by exact Hcp. reflexivity.
Qed.

Lemma scalar_values_utf16 (cps : list Z) :
  Forall scalar cps -> scalar_values (flat_map utf16_units cps) = cps.
Proof.
  induction 1 as [|cp cps Hcp _ IH]; [reflexivity|].
  cbn [flat_map]. rewrite scalar_values_units, IH by exact Hcp. reflexivity.
Qed.

Lemma of_to_Z (b : Byte.byte) : of_Z (to_Z b) = b.
Proof. destruct b; reflexivity. Qed.

(** Decoding a well-formed buffer and encoding the text again gives the
    buffer back. *)
Lemma well_formed_round_trip (a : bytes) :
  well_formed_utf8 a -> utf8ToBytes (Buffer_toString a) = a.
Proof.
  intros (cps & Hcps & Ha). unfold utf8ToBytes, Buffer_toString.
  rewrite Ha, decode_encode, scalar_values_utf16 by exact Hcps.
  rewrite <- Ha, map_map. rewrite <- (map_id a) at 2.
  apply map_ext. intros b. apply of_to_Z.
Qed.

(** C4 fails on the code. The artifact [ff] is not UTF-8; its text is
    U+FFFD, as is the text of the artifact [fe], and what [hashMessage]
    turns back into bytes is [ef bf bd]. The commitment is not the digest
    of the byte [ff]. *)
Lemma artifact_is_reencoded_before_hashing :
  Buffer_toString [Byte.xff] = [0xFFFD]
  /\ Buffer_toString [Byte.xfe] = Buffer_toString [Byte.xff]
  /\ hashed_bytes [Byte.xff] = [Byte.xef; Byte.xbf; Byte.xbd]
  /\ commitment_of [Byte.xff] = commitment_of [Byte.xfe]
  /\ commitment_of [Byte.xff] <> "0x" +:+ CryptoJS.sha256_hex [Byte.xff].
Proof.
  repeat split; try (vm_compute; reflexivity).
  vm_compute. discriminate.
Qed.

(** C4, as the code has it. The artifact reaches [hashMessage] as text:
    the bytes [hashMessage] hands to [SHA256] are the UTF-8 encoding of
    the artifact's decoded text. They are the artifact's own bytes when the
    artifact is well-formed UTF-8, and two artifacts with the same text get
    the same commitment. *)
Theorem commitment_is_of_the_text (a a' : bytes) :
  commitment_of a
  = "0x" +:+ CryptoJS.toString
               (CryptoJS.SHA256 (CryptoJS.MTypedArray (hashed_bytes a)))
  /\ hashed_bytes a = utf8ToBytes (Buffer_toString a)
  /\ (well_formed_utf8 a -> hashed_bytes a = a)
  /\ (Buffer_toString a = Buffer_toString a' ->
      hashed_bytes a = hashed_bytes a' /\ commitment_of a = commitment_of a').
Proof.
  split; [reflexivity|]. split; [reflexivity|].
  split; [apply well_formed_round_trip|].
  intros Htext. unfold hashed_bytes, commitment_of. rewrite Htext.
  split; reflexivity.
Qed.

Lemma commitment_is_of_the_text_witness :
  hashed_bytes (Stub.ascii_bytes "proof") = Stub.ascii_bytes "proof"
  /\ commitment_of [Byte.xfe] = commitment_of [Byte.xff].
Proof.
  split.
  - apply (commitment_is_of_the_text (Stub.ascii_bytes "proof") []).
    exists [0x70; 0x72; 0x6f; 0x6f; 0x66]. split.
    + repeat constructor; unfold scalar; lia.
    + vm_compute. reflexivity.
  - apply (commitment_is_of_the_text [Byte.xfe] [Byte.xff]).
    vm_compute. reflexivity.
Defined.

(* ===================================================================== *)
(** ** Further properties of the code *)
(* ===================================================================== *)

Import Decoder.

(* --------------------------------------------------------------------- *)
(** *** [hashMessage] *)
(* --------------------------------------------------------------------- *)

(** X1. [hashMessage] does not depend on its message: any two messages
    get the same commitment, which is [0x] followed by 64 hexadecimal
    digits. *)
Theorem commitment_ignores_the_message (m1 m2 : js_string) :
  hashMessage m1 = hashMessage m2
  /\ exists digest : string,
       hashMessage m1 = "0x" +:+ digest
       /\ String.length digest = 64%nat
       /\ forallb is_hex_digit (list_ascii_of_string digest) = true.
Proof.
  split; [rewrite !hashMessage_value; reflexivity|].
  apply hashMessage_fixed_form.
Qed.

(* --------------------------------------------------------------------- *)
(** *** The text of an artifact *)
(* --------------------------------------------------------------------- *)

Lemma to_Z_octet (b : Byte.byte) : octet (to_Z b).
Proof. destruct b; cbv; split; congruence. Qed.

Lemma to_of_Z (z : Z) : octet z -> to_Z (of_Z z) = z.
Proof.
  intros Hz.
  assert (H : all_in 8 0 (fun z => to_Z (of_Z z) =? z) = true)
    by (vm_compute; reflexivity).
  apply Z.eqb_eq. apply (all_in_spec _ 8 0 H).
  change (2 ^ Z.of_nat 8) with 256. exact Hz.
Qed.

(** **** The decoder emits scalar values only *)

Lemma lead_sound (b : Z) :
  octet b ->
  match lead b with inl cp => scalar cp | inr p => sound p end.
Proof.
  intros Hb. unfold octet in Hb. unfold lead.
  destruct (b <=? 0x7F) eqn:E1; [apply Z.leb_le in E1|apply Z.leb_gt in E1].
  { unfold scalar. lia. }
  destruct ((0xC2 <=? b) && (b <=? 0xDF)) eqn:E2.
  { apply andb_prop in E2 as [Hlo Hhi]. apply Z.leb_le in Hlo, Hhi.
    change 0x1F with (Z.ones 5). rewrite Z.land_ones by lia.
    change (2 ^ 5) with 32.
    pose proof (Z.div_mod b 32 ltac:(lia)).
    pose proof (Z.mod_pos_bound b 32 ltac:(lia)).
    unfold sound. cbn [lower upper code_point bytes_needed].
    split; [lia|]. split; [lia|]. left. split; [reflexivity|]. lia. }
  destruct ((0xE0 <=? b) && (b <=? 0xEF)) eqn:E3.
  { apply andb_prop in E3 as [Hlo Hhi]. apply Z.leb_le in Hlo, Hhi.
    change 0xF with (Z.ones 4). rewrite Z.land_ones by lia.
    change (2 ^ 4) with 16.
    pose proof (Z.div_mod b 16 ltac:(lia)).
    pose proof (Z.mod_pos_bound b 16 ltac:(lia)).
    unfold sound. cbn [lower upper code_point bytes_needed].
    destruct (Z.eqb_spec b 0xE0), (Z.eqb_spec b 0xED);
      (split; [lia|]); (split; [lia|]); right; left;
      (split; [reflexivity|]); lia. }
  destruct ((0xF0 <=? b) && (b <=? 0xF4)) eqn:E4.
  { apply andb_prop in E4 as [Hlo Hhi]. apply Z.leb_le in Hlo, Hhi.
    change 0x7 with (Z.ones 3). rewrite Z.land_ones by lia.
    change (2 ^ 3) with 8.
    pose proof (Z.div_mod b 8 ltac:(lia)).
    pose proof (Z.mod_pos_bound b 8 ltac:(lia)).
    unfold sound. cbn [lower upper code_point bytes_needed].
    destruct (Z.eqb_spec b 0xF0), (Z.eqb_spec b 0xF4);
      (split; [lia|]); (split; [lia|]); right; right;
      (split; [reflexivity|]); lia. }
  unfold scalar, REPLACEMENT. lia.
Qed.

Lemma step_sound (st : option pending) (b : Z) :
  sound_state st -> octet b ->
  Forall scalar (step st b).1 /\ sound_state (step st b).2.
Proof.
  intros Hst Hb. pose proof (lead_sound b Hb) as Hlead.
  assert (Hrep : scalar REPLACEMENT) by (unfold scalar, REPLACEMENT; lia).
  destruct st as [p|]; cbn [step].
  2: { destruct (lead b); cbn; split; auto. }
  destruct ((lower p <=? b) && (b <=? upper p)) eqn:E.
  2: { destruct (lead b); cbn; split; auto. }
  apply andb_prop in E as [Hlo Hhi]. apply Z.leb_le in Hlo, Hhi.
  destruct Hst as (Hl & Hu & Hcases).
  change 0x3F with (Z.ones 6). rewrite Z.land_ones by lia.
  change (2 ^ 6) with 64.
  pose proof (Z.div_mod b 64 ltac:(lia)).
  pose proof (Z.mod_pos_bound b 64 ltac:(lia)).
  assert (Hc : b mod 64 = b - 128) by lia.
  cbn zeta in Hcases.
  destruct Hcases as [(Hn & Hcp & Hsur)|[(Hn & Hcp)|(Hn & Hcp)]];
    rewrite Hn, lor_shiftl_6 by lia.
  - cbn. split; [|exact I]. constructor; [|constructor].
    unfold scalar. lia.
  - cbn. split; [constructor|].
    unfold sound. cbn [lower upper code_point bytes_needed].
    split; [lia|]. split; [lia|]. left. split; [reflexivity|]. lia.
  - cbn. split; [constructor|].
    unfold sound. cbn [lower upper code_point bytes_needed].
    split; [lia|]. split; [lia|]. right. left. split; [reflexivity|]. lia.
Qed.

Lemma decode_scalars (bs : list Z) :
  Forall octet bs ->
  forall st, sound_state st -> Forall scalar (decode st bs).
Proof.
  induction 1 as [|b bs Hb _ IH]; intros st Hst; cbn [decode].
  - destruct st; repeat constructor; unfold scalar, REPLACEMENT; lia.
  - destruct (step_sound st b Hst Hb) as [Hout Hnext].
    apply Forall_app. split; [exact Hout|]. apply IH. exact Hnext.
Qed.

Lemma text_scalars (a : bytes) : Forall scalar (decode None (map to_Z a)).
Proof.
  apply decode_scalars; [|exact I].
  apply Forall_map, Forall_forall. intros b _. apply to_Z_octet.
Qed.

(** **** The encoder writes octets *)

Lemma lor_small (hi x n : Z) :
  0 <= n -> 0 <= x < 2 ^ n -> 0 <= hi ->
  Z.lor (hi * 2 ^ n) x = hi * 2 ^ n + x.
Proof.
  intros Hn Hx Hhi.
  assert (Hland : Z.land (hi * 2 ^ n) x = 0).
  { apply Z.bits_inj'. intros m Hm. rewrite Z.land_spec, Z.bits_0.
    destruct (Z_lt_ge_dec m n).
    - rewrite Z.mul_pow2_bits_low by lia. reflexivity.
    - destruct (Z.eq_dec x 0) as [->|];
        [rewrite Z.bits_0, andb_false_r; reflexivity|].
      rewrite (Z.bits_above_log2 x m), andb_false_r; [reflexivity|lia|].
      apply Z.lt_le_trans with n; [|lia].
      apply Z.log2_lt_pow2; lia. }
  pose proof (Z.add_lor_land (hi * 2 ^ n) x) as Hadd.
  rewrite Hland in Hadd. lia.
Qed.

Lemma encode_octets (cp : Z) : scalar cp -> Forall octet (encode_scalar cp).
Proof.
  intros [Hrange _]. unfold encode_scalar, octet.
  assert (Hd : forall x n, 0 <= n -> Z.shiftr x n = x / 2 ^ n)
    by (intros; apply Z.shiftr_div_pow2; assumption).
  assert (Hm : forall x, Z.land x 0x3F = x mod 64)
    by (intros x; change 0x3F with (Z.ones 6);
        rewrite Z.land_ones by lia; reflexivity).
  assert (Hcont : forall x, 0 <= Z.lor 0x80 (x mod 64) < 256).
  { intros x. pose proof (Z.mod_pos_bound x 64 ltac:(lia)).
    destruct (continuation_byte (x mod 64)); lia. }
  rewrite !Hm, !Hd by lia.
  destruct (cp <? 0x80) eqn:E1; [apply Z.ltb_lt in E1|apply Z.ltb_ge in E1].
  { repeat constructor; lia. }
  destruct (cp <? 0x800) eqn:E2; [apply Z.ltb_lt in E2|apply Z.ltb_ge in E2].
  { assert (0 <= cp / 2 ^ 6 < 32)
      by (split; [apply Z.div_pos; lia|apply Z.div_lt_upper_bound; lia]).
    repeat constructor; try apply Hcont;
      change 0xC0 with (6 * 2 ^ 5); rewrite lor_small; lia. }
  destruct (cp <? 0x10000) eqn:E3; [apply Z.ltb_lt in E3|apply Z.ltb_ge in E3].
  { assert (0 <= cp / 2 ^ 12 < 16)
      by (split; [apply Z.div_pos; lia|apply Z.div_lt_upper_bound; lia]).
    repeat constructor; try apply Hcont;
      change 0xE0 with (14 * 2 ^ 4); rewrite lor_small; lia. }
  { assert (0 <= cp / 2 ^ 18 < 8)
      by (split; [apply Z.div_pos; lia|apply Z.div_lt_upper_bound; lia]).
    repeat constructor; try apply Hcont;
      change 0xF0 with (30 * 2 ^ 3); rewrite lor_small; lia. }
Qed.

(** **** What is hashed and dumped *)

Lemma hashed_bytes_encoding (a : bytes) :
  map to_Z (hashed_bytes a)
  = flat_map encode_scalar (decode None (map to_Z a)).
Proof.
  unfold hashed_bytes, utf8ToBytes, Buffer_toString.
  rewrite scalar_values_utf16 by apply text_scalars.
  rewrite map_map. rewrite <- (map_id (flat_map _ _)) at 2.
  apply map_ext_in. intros z Hz. apply to_of_Z.
  apply in_flat_map in Hz as (cp & Hcp & Hz).
  pose proof (text_scalars a) as Hall.
  rewrite List.Forall_forall in Hall.
  pose proof (encode_octets cp (Hall cp Hcp)) as Hoct.
  rewrite List.Forall_forall in Hoct. apply Hoct. exact Hz.
Qed.

Lemma hashed_bytes_well_formed (a : bytes) : well_formed_utf8 (hashed_bytes a).
Proof.
  exists (decode None (map to_Z a)).
  split; [apply text_scalars|apply hashed_bytes_encoding].
Qed.

(** X2. Whatever the artifact, the bytes that [proof] dumps to [test.txt]
    and that [hashMessage] is given are well-formed UTF-8; read back as
    text they are the text of the artifact; and decoding and encoding them
    once more changes nothing. *)
Theorem dumped_text_is_well_formed (a : bytes) :
  well_formed_utf8 (hashed_bytes a)
  /\ Buffer_toString (hashed_bytes a) = Buffer_toString a
  /\ hashed_bytes (hashed_bytes a) = hashed_bytes a.
Proof.
  split; [apply hashed_bytes_well_formed|]. split.
  - unfold Buffer_toString at 1. rewrite hashed_bytes_encoding.
    rewrite decode_encode by apply text_scalars. reflexivity.
  - apply well_formed_round_trip, hashed_bytes_well_formed.
Qed.

(** X3. The bytes that reach the hasher are the artifact's own bytes
    exactly when the artifact is well-formed UTF-8. *)
Theorem raw_bytes_are_hashed_iff_well_formed (a : bytes) :
  hashed_bytes a = a <-> well_formed_utf8 a.
Proof.
  split.
  - intros <-. apply hashed_bytes_well_formed.
  - apply well_formed_round_trip.
Qed.

(* --------------------------------------------------------------------- *)
(** *** [relaySetProof], [verifyProof], [relaySetHello] and the route *)
(* --------------------------------------------------------------------- *)

Section Functions.

Context (C : Collaborators) (PRIVATE_KEY : option string).

(** X4. [relaySetProof] hands at most one transaction to
    [sendTransaction], and only after every call before it returned. The
    transaction goes to [contract.options.address] and carries the ABI
    encoding of [create_proof(hello)], the gas [estimateGas] answered for
    that call from the default account, and the gas price of the node.
    When no transaction is handed over, the [catch] logged an error. *)
Theorem relaySetProof_transaction (hello : string) (w : World C) :
  let '(t, _, _) := interp C (relaySetProof PRIVATE_KEY hello) w in
  (submissions t = [] /\ exists e, caught_in_relaySetProof t = Some e)
  \/ exists txCreateProof from gasCost1 gasPrice dataTx to,
       In (Ev (web3 (create_proof hello)) (Returned txCreateProof)) t
       /\ In (Ev (web3 (estimateGas txCreateProof from)) (Returned gasCost1)) t
       /\ In (Ev (web3 get_defaultAccount) (Returned from)) t
       /\ In (Ev (web3 getGasPrice) (Returned gasPrice)) t
       /\ In (Ev (web3 (encodeABI txCreateProof)) (Returned dataTx)) t
       /\ In (Ev (web3 options_address) (Returned to)) t
       /\ submissions t
          = [{| tx_from := None; tx_to := to; tx_value := None;
                tx_gas := gasCost1; tx_gasPrice := Some gasPrice;
                tx_nonce := None; tx_data := dataTx |}]
       /\ Forall (fun ev => threw ev = true -> is_submission ev = true) t.
Proof.
  destruct w as [fs x]. unfold relaySetProof.
  run;
    first [ left; split; [reflexivity|eexists; reflexivity]
          | right; eexists _, _, _, _, _, _;
            split; [in_trace|]; split; [in_trace|]; split; [in_trace|];
            split; [in_trace|]; split; [in_trace|]; split; [in_trace|];
            split; [reflexivity|only_the_submission_threw] ].
Qed.

(** X5. [verifyProof] never rejects, sends and signs no transaction,
    stores nothing, writes no file and sends no response, whatever the
    collaborators answer; it reads the counter at most once and calls
    [verify_proof] at most once. *)
Theorem verifyProof_only_asks (w : World C) :
  let '(t, w', r) := interp C (verifyProof PRIVATE_KEY) w in
  r = Returned tt
  /\ files w' = files w
  /\ created t = [] /\ submissions t = [] /\ signed t = [] /\ raw_sent t = []
  /\ sends t = [] /\ existsb is_write t = false
  /\ (length (counter_reads t) <= 1)%nat
  /\ (length (verify_calls t) <= 1)%nat.
Proof.
  destruct w as [fs x]. unfold verifyProof.
  run; repeat split; cbn; lia.
Qed.

(** X6. [verifyProof] has no guard on the counter: whenever the counter
    was read and the artifact is on disk, [verify_proof] is called with
    the hash of the artifact and with the JavaScript number
    [weiCounter - 1], the counter as a double minus one in doubles. For
    every counter from [0] to [2^53] that is the counter minus one: [-1]
    when the counter is [0]. *)
Theorem verifyProof_index (w : World C) t w' r
        (counter : Z) (artifact : bytes) :
  interp C (verifyProof PRIVATE_KEY) w = (t, w', r) ->
  counter_reads t = [counter] ->
  files w !! PROOF_PATH = Some artifact ->
  file_reads t = [(PROOF_PATH, artifact)]
  /\ verify_calls t
     = [(minus_one (Number_of counter), commitment_of artifact)]
  /\ (0 <= counter <= 2 ^ 53 ->
      verify_calls t = [(Finite (counter - 1), commitment_of artifact)]).
Proof.
  destruct w as [fs x]. cbn [files]. intros Hrun Hcounter Hfile.
  assert (H : file_reads t = [(PROOF_PATH, artifact)]
              /\ verify_calls t
                 = [(minus_one (Number_of counter), commitment_of artifact)]).
  { revert Hrun Hcounter. unfold verifyProof.
    run; intros [= <- <- <-]; cbn; intros [= <-]; split; reflexivity. }
  destruct H as [Hreads Hcalls]. split; [exact Hreads|].
  split; [exact Hcalls|].
  intros Hbound. rewrite Hcalls, minus_one_exact by exact Hbound.
  reflexivity.
Qed.

(** X7. With no artifact on disk [verifyProof] never calls
    [verify_proof], and it has one of two runs. Either its first six
    calls return, the last of them the read of the counter: then the
    read of the artifact is the next call, it throws [ENOENT], and the
    [catch] logs that error. Or one of these six calls throws: then the
    counter was not read, [readFileSync] is not called, and the [catch]
    logs the one error that was thrown. *)
Theorem verifyProof_without_artifact (w : World C) t w' r :
  interp C (verifyProof PRIVATE_KEY) w = (t, w', r) ->
  files w !! PROOF_PATH = None ->
  verify_calls t = [] /\ file_reads t = []
  /\ ((exists account checksum valid counter,
         t = [Ev (web3 (privateKeyToAccount PRIVATE_KEY)) (Returned account);
              Ev (web3 (toChecksumAddress (address account)))
                 (Returned checksum);
              Ev (web3 (isAddress (address account))) (Returned valid);
              Ev (web3 (wallet_add account)) (Returned tt);
              Ev (web3 (set_defaultAccount (address account))) (Returned tt);
              Ev (web3 counter_call) (Returned counter);
              Ev (readFileSync PROOF_PATH)
                 (Thrown (FsError "ENOENT" PROOF_PATH));
              Ev (console_log
                    [LString "My error";
                     LError (FsError "ENOENT" PROOF_PATH)])
                 (Returned tt)]
         /\ counter_reads t = [counter]
         /\ caught_in_verifyProof t = Some (FsError "ENOENT" PROOF_PATH))
      \/ (exists e,
            counter_reads t = []
            /\ existsb is_read t = false
            /\ errors t = [e]
            /\ caught_in_verifyProof t = Some e)).
Proof.
  destruct w as [fs x]. cbn [files]. intros Hrun Hfile. revert Hrun.
  unfold verifyProof.
  run; intros [= <- <- <-]; cbn;
    repeat match goal with u : unit |- _ => destruct u end;
    (split; [reflexivity|]); (split; [reflexivity|]);
    first [ left; eexists _, _, _, _; repeat split; reflexivity
          | right; eexists; repeat split; reflexivity ].
Qed.

(** X8. [relaySetHello] rejects exactly when one of its four calls
    before [sendSignedTransaction] throws, and then nothing is sent.
    Otherwise it signs one transaction: from the backend wallet to the
    contract, value [0], gas [300000], the nonce it just read, the ABI
    encoding of [relaySetHello(hello, helloSetter, signature)]; it hands
    the signed bytes to [sendSignedTransaction] once and resolves whatever
    the node answers. *)
Theorem relaySetHello_transaction (hello helloSetter signature : qval)
        (w : World C) :
  let '(t, _, r) :=
    interp C (relaySetHello PRIVATE_KEY hello helloSetter signature) w in
  match r with
  | Thrown e => raw_sent t = [] /\ last_error t = Some e
  | Returned _ =>
    exists nonce tx data rawTransaction,
      In (Ev (web3 (getTransactionCount BACKEND_WALLET_ADDRESS "latest"))
             (Returned nonce)) t
      /\ In (Ev (web3 (relaySetHello_call hello helloSetter signature))
                (Returned tx)) t
      /\ In (Ev (web3 (encodeABI tx)) (Returned data)) t
      /\ In (Ev (web3 (signTransaction
                         {| tx_from := Some BACKEND_WALLET_ADDRESS;
                            tx_to := OLD_CONTRACT_ADDRESS;
                            tx_value := Some 0; tx_gas := 300000;
                            tx_gasPrice := None; tx_nonce := Some nonce;
                            tx_data := data |} PRIVATE_KEY))
                (Returned rawTransaction)) t
      /\ length (signed t) = 1%nat
      /\ raw_sent t = [rawTransaction]
  end.
Proof.
  destruct w as [fs x]. unfold relaySetHello.
  run;
    first [ split; reflexivity
          | eexists _, _, _, _;
            split; [in_trace|]; split; [in_trace|]; split; [in_trace|];
            split; [in_trace|]; split; reflexivity ].
Qed.

(** Every commitment [verifyProof] passes to [verify_proof] is the hash of
    an artifact. *)
Lemma verify_calls_are_hashes (w : World C) t w' r :
  interp C (verifyProof PRIVATE_KEY) w = (t, w', r) ->
  forall i c, In (i, c) (verify_calls t) -> exists a, c = commitment_of a.
Proof.
  destruct w as [fs x]. unfold verifyProof.
  run; intros [= <- <- <-] i c; cbn; intros HIn;
    first [contradiction
          | destruct HIn as [[= <- <-]|[]];
            match goal with
            | |- exists a, hashMessage (Buffer_toString ?b) = _ => exists b
            end; reflexivity].
Qed.



End Functions.

Lemma verifyProof_index_witness :
  file_reads verify_on_fresh_contract.1.1 = [(PROOF_PATH, Stub.artifact 0)]
  /\ verify_calls verify_on_fresh_contract.1.1
     = [(minus_one (Number_of 0), commitment_of (Stub.artifact 0))]
  /\ (0 <= 0 <= 2 ^ 53 ->
      verify_calls verify_on_fresh_contract.1.1
      = [(Finite (0 - 1), commitment_of (Stub.artifact 0))]).
Proof.
  apply (verifyProof_index Stub.collaborators Stub.KEY world_fresh_contract
           verify_on_fresh_contract.1.1 verify_on_fresh_contract.1.2
           verify_on_fresh_contract.2 0 (Stub.artifact 0)).
  - exact (triple_eta verify_on_fresh_contract).
  - vm_compute. reflexivity.
  - vm_compute. reflexivity.
Defined.

Lemma verifyProof_without_artifact_witness :
  counter_reads verify_without_artifact.1.1 = [5]
  /\ caught_in_verifyProof verify_without_artifact.1.1
     = Some (FsError "ENOENT" PROOF_PATH)
  /\ verify_calls verify_without_artifact.1.1 = []
  /\ file_reads verify_without_artifact.1.1 = [].
Proof.
  destruct (verifyProof_without_artifact Stub.collaborators Stub.KEY
              Stub.world0
              verify_without_artifact.1.1 verify_without_artifact.1.2
              verify_without_artifact.2
              (triple_eta verify_without_artifact) eq_refl)
    as (Hcalls & Hreads & _).
  split; [vm_compute; reflexivity|]. split; [vm_compute; reflexivity|].
  split; assumption.
Defined.

(** X11. Whatever two requests read, and whatever node and key they run
    against, the commitment one of them gives to [create_proof] is the
    commitment the other gives to [create_proof] and to [verify_proof]. *)
Theorem every_request_submits_the_same_commitment
        (C1 C2 : Collaborators) (KEY1 KEY2 : option string)
        (req1 req2 : request) (w1 : World C1) (w2 : World C2)
        t1 w1' r1 t2 w2' r2 (c1 : string) :
  interp C1 (verified_chain KEY1 req1) w1 = (t1, w1', r1) ->
  interp C2 (verified_chain KEY2 req2) w2 = (t2, w2', r2) ->
  In c1 (created t1) ->
  (forall c2, In c2 (created t2) -> c2 = c1)
  /\ (forall i c2, In (i, c2) (verify_calls t2) -> c2 = c1).
Proof.
  intros H1 H2 Hc1.
  destruct (created_is_hash _ _ _ _ _ _ _ H1 c1 Hc1) as (a1 & _ & ->).
  unfold commitment_of. rewrite hashMessage_value. split.
  - intros c2 Hc2.
    destruct (created_is_hash _ _ _ _ _ _ _ H2 c2 Hc2) as (a2 & _ & ->).
    apply hashMessage_value.
  - intros i c2 Hc2. apply verified_chain_run in H2.
    destruct (handle C2 (exec PROVE_COMMAND) w2) as [w3 [[so se]|e]];
      [|destruct H2 as (-> & _); destruct Hc2].
    destruct (files w3 !! PROOF_PATH) as [artifact|];
      [|destruct H2 as (-> & _); destruct Hc2].
    destruct (write_error C2 "test.txt" (outside w3)) as [e|];
      [destruct H2 as (-> & _); destruct Hc2|].
    destruct H2 as (t_relay & w4 & t_verify & Hrelay & Hverify & -> & _).
    apply relaySetProof_run in Hrelay as (_ & _ & (_ & _ & Rv & _) & _).
    autorewrite with trace_app in Hc2. rewrite Rv in Hc2. cbn in Hc2.
    rewrite app_nil_r in Hc2.
    destruct (verify_calls_are_hashes _ _ _ _ _ _ Hverify i c2 Hc2) as (a & ->).
    apply hashMessage_value.
Qed.

(** Two requests whose artifacts differ. *)
Lemma every_request_submits_the_same_commitment_witness :
  head (file_reads run0.1.1) <> head (file_reads run_second.1.1)
  /\ (forall c2, In c2 (created run_second.1.1) ->
      c2 = commitment_of (Stub.artifact 0))
  /\ (forall i c2, In (i, c2) (verify_calls run_second.1.1) ->
      c2 = commitment_of (Stub.artifact 0)).
Proof.
  split; [vm_compute; discriminate|].
  apply (every_request_submits_the_same_commitment
           Stub.collaborators Stub.collaborators Stub.KEY Stub.KEY
           Stub.request0 Stub.request0 Stub.world0 world_second_run
           run0.1.1 run0.1.2 run0.2
           run_second.1.1 run_second.1.2 run_second.2).
  - exact (triple_eta run0).
  - exact (triple_eta run_second).
  - vm_compute. left. reflexivity.
Defined.

(* --------------------------------------------------------------------- *)
(** *** The third module *)
(* --------------------------------------------------------------------- *)

#[local] Arguments Backend3.relaySetProof : simpl never.

Section Third.

Context (C : Collaborators) (PRIVATE_KEY : option string).

Lemma execute_bind {A B : Type} (p : Backend3.Script A)
      (f : A -> Backend3.Script B) (w : World C) :
  Backend3.execute C (p ≫= f) w =
  match Backend3.execute C p w with
  | (t1, w1, Returned a) =>
    let '(t2, w2, r) := Backend3.execute C (f a) w1 in (t1 ++ t2, w2, r)
  | (t1, w1, Thrown e) => (t1, w1, Thrown e)
  end.
Proof.
  revert w. induction p as [a|e|X c k IH]; intros w; cbn.
  - destruct (Backend3.execute C (f a) w) as [[t2 w2] r]. reflexivity.
  - reflexivity.
  - destruct (Backend3.handle_call C c w) as [w1 r].
    change (Backend3.then_ f (k r)) with (k r ≫= f). rewrite IH.
    destruct (Backend3.execute C (k r) w1) as [[t1 w2] [a|e]]; [|reflexivity].
    destruct (Backend3.execute C (f a) w2) as [[t2 w3] r']. reflexivity.
Qed.

(** A function of the first module run from a script does what it does on
    its own. *)
Lemma execute_lift {A : Type} (p : Prog A) (w : World C) :
  let '(t, w', r) := Backend3.execute C (Backend3.lift p) w in
  interp C p w = (Backend3.core t, w', r)
  /\ Backend3.outputs_sent t = [].
Proof.
  revert w. induction p as [a|e|X c k IH]; intros w; cbn;
    [split; reflexivity..|].
  destruct (handle C c w) as [w1 r]. specialize (IH r w1).
  destruct (Backend3.execute C (Backend3.lift (k r)) w1) as [[t w2] a].
  destruct IH as [-> Hout]. split; [reflexivity|exact Hout].
Qed.

Lemma core_app (a b : list Backend3.occurrence) :
  Backend3.core (a ++ b) = Backend3.core a ++ Backend3.core b.
Proof. apply flat_map_app. Qed.

Lemma outputs_sent_app (a b : list Backend3.occurrence) :
  Backend3.outputs_sent (a ++ b)
  = Backend3.outputs_sent a ++ Backend3.outputs_sent b.
Proof. apply flat_map_app. Qed.

(** X12. [relaySetProof] of the third module does not look at its
    argument: for every argument it does what [relaySetProof] of the first
    module does for the one commitment written in its body, and that
    commitment is the only value it can give to [create_proof]. *)
Theorem relaySetProof_ignores_its_argument (hello : js_string) (w : World C) :
  interp C (Backend3.relaySetProof PRIVATE_KEY hello) w
  = interp C (relaySetProof PRIVATE_KEY Backend3.FIXED_COMMITMENT) w
  /\ (let '(t, _, _) :=
        interp C (Backend3.relaySetProof PRIVATE_KEY hello) w in
      created t = [] \/ created t = [Backend3.FIXED_COMMITMENT]).
Proof.
  change (Backend3.relaySetProof PRIVATE_KEY hello)
    with (relaySetProof PRIVATE_KEY Backend3.FIXED_COMMITMENT).
  split; [reflexivity|].
  destruct (interp C (relaySetProof PRIVATE_KEY Backend3.FIXED_COMMITMENT) w)
    as [[t w'] r] eqn:Hrun.
  apply relaySetProof_run in Hrun as (_ & _ & _ & _ & Hcreated & _).
  exact Hcreated.
Qed.

(** X13. The route of the third module, call by call. When [exec]
    rejects, the handler rejects with that error after this one call.
    When the read of the artifact throws, the handler rejects with
    [ENOENT] after three calls. In both cases nothing is sent and nothing
    is asked of web3. Otherwise [relaySetProof] runs on the text of the
    artifact, from the world the prover left, and returns; the handler
    then sets the header, sends [stdout] and [stderr] of the command and
    returns. In no case does the artifact reach the chain: the only value
    [create_proof] can get is the one written in [relaySetProof]; the
    counter is not read, [verify_proof] is not called and no file is
    written. *)
Theorem third_module_answers_with_the_prover_output
        (req : request) (w : World C) :
  let '(t, w', r) :=
    Backend3.execute C (Backend3.verified_chain PRIVATE_KEY req) w in
  let chain := Backend3.core t in
  (created chain = [] \/ created chain = [Backend3.FIXED_COMMITMENT])
  /\ counter_reads chain = [] /\ verify_calls chain = []
  /\ existsb is_write chain = false
  /\ files w' = files (handle C (exec PROVE_COMMAND) w).1
  /\ match handle C (exec PROVE_COMMAND) w with
     | (w1, Thrown e) =>
       t = [Backend3.Occ (Backend3.current (exec PROVE_COMMAND)) (Thrown e)]
       /\ r = Thrown e
       /\ w' = w1
       /\ Backend3.outputs_sent t = []
       /\ web3_calls chain = []
     | (w1, Returned (stdout, stderr)) =>
       match files w1 !! PROOF_PATH with
       | None =>
         t = [Backend3.Occ (Backend3.current (exec PROVE_COMMAND))
                           (Returned (stdout, stderr));
              Backend3.Occ (Backend3.console_log_output
                              ("Output was:" +:+ newline) stdout stderr)
                           (Returned tt);
              Backend3.Occ (Backend3.current (readFileSync PROOF_PATH))
                           (Thrown (FsError "ENOENT" PROOF_PATH))]
         /\ r = Thrown (FsError "ENOENT" PROOF_PATH)
         /\ w' = w1
         /\ Backend3.outputs_sent t = []
         /\ web3_calls chain = []
       | Some artifact =>
         exists t_relay,
           interp C (Backend3.relaySetProof PRIVATE_KEY
                       (Buffer_toString artifact)) w1
           = (Backend3.core t_relay, w', Returned tt)
           /\ Backend3.outputs_sent t_relay = []
           /\ t = [Backend3.Occ (Backend3.current (exec PROVE_COMMAND))
                                (Returned (stdout, stderr));
                   Backend3.Occ (Backend3.console_log_output
                                   ("Output was:" +:+ newline) stdout stderr)
                                (Returned tt);
                   Backend3.Occ (Backend3.current (readFileSync PROOF_PATH))
                                (Returned artifact)]
                    ++ t_relay
                    ++ [Backend3.Occ
                          (Backend3.current
                             (res_setHeader "Content-Type" "application/json"))
                          (Returned tt);
                        Backend3.Occ (Backend3.res_send_output stdout stderr)
                                     (Returned tt)]
           /\ r = Returned tt
           /\ Backend3.outputs_sent t = [(stdout, stderr)]
       end
     end.
Proof.
  destruct w as [fs x].
  unfold Backend3.verified_chain, Backend3.verifiedProof.
  cbn. destruct (run_command C PROVE_COMMAND x fs) as [[x1 fs1] [[so se]|e]];
    cbn; [|repeat split; auto].
  destruct (fs1 !! PROOF_PATH) as [artifact|]; cbn; [|repeat split; auto].
  change (Backend3.then_ ?f ?p) with (p ≫= f).
  rewrite !execute_bind.
  pose proof (execute_lift
                (Backend3.relaySetProof PRIVATE_KEY (Buffer_toString artifact))
                (Build_World C fs1 x1)) as Hlift.
  destruct (Backend3.execute C (Backend3.lift _) _) as [[tl wl] rl].
  destruct Hlift as [Hrun Hout].
  pose proof Hrun as Hrelay.
  change (Backend3.relaySetProof PRIVATE_KEY (Buffer_toString artifact))
    with (relaySetProof PRIVATE_KEY Backend3.FIXED_COMMITMENT) in Hrun.
  apply relaySetProof_run
    in Hrun as (-> & Hfs & (_ & Rcr & Rv & _ & _ & Rw & _) & _ & Rc & _).
  cbn. rewrite !core_app, !outputs_sent_app. cbn.
  autorewrite with trace_app. rewrite !existsb_app, Rcr, Rv, Rw, Hout, Hfs.
  cbn. rewrite !app_nil_r.
  split; [exact Rc|]. do 4 (split; [reflexivity|]).
  exists tl. split; [exact Hrelay|]. split; [exact Hout|].
  repeat split; reflexivity.
Qed.

End Third.

(* --------------------------------------------------------------------- *)
(** *** Start-up *)
(* --------------------------------------------------------------------- *)

Import Startup.

Section StartUp.

Context (L : Library) (M : Settings).

Lemma loadContract_vars (data : string) (g : globals L) :
  let '(g', r) := loadContract L M data g in
  ((is_loaded (contract g) = true -> is_loaded (provider g) = true) ->
   is_loaded (contract g') = true -> is_loaded (provider g') = true)
  /\ (forall e, JSON_parse L data = Thrown e -> contract g' = contract g)
  /\ (r = Returned tt ->
      is_loaded (provider g') = true /\ is_loaded (contract g') = true).
Proof.
  unfold loadContract, getContract, getWeb3.
  destruct (Web3_new L (inl _)) as [p|e]; cbn;
    [|split; [auto|split; [auto|discriminate]]].
  destruct (JSON_parse L data) as [abi|e]; cbn;
    [|split; [auto|split; [auto|discriminate]]].
  destruct (Web3_new L (inr p)) as [web3'|e]; cbn;
    [|split; [auto|split; discriminate]].
  destruct (Contract_new L web3' abi _) as [c|e]; cbn;
    split; auto; split; auto; discriminate.
Qed.

Lemma started_snoc (cbs : list callback) (cb : callback) :
  started L M (cbs ++ [cb]) = on_callback L M (started L M cbs) cb.
Proof. unfold started. rewrite fold_left_app. reflexivity. Qed.

(** Every case of [on_callback]. *)
Ltac callback_cases s cb :=
  unfold on_callback, exit;
  destruct (running s) eqn:?; cbn [negb];
  [destruct cb as [[?data|?err]| |?err];
   [destruct (read_pending s) eqn:?; cbn [negb];
    [destruct (loadContract L M data (vars s)) as [?g [[]|?e]] eqn:?;
     [|destruct (unhandled_rejection_exits L) eqn:?]|]
   |destruct (read_pending s) eqn:?; cbn [negb]
   |destruct (listen_pending s) eqn:?; cbn [negb]
   |destruct (listen_pending s) eqn:?; cbn [negb]]|];
  cbn.

(** What one step of the event loop keeps. *)
Lemma on_callback_keeps (s : server L) (cb : callback) :
  let s' := on_callback L M s cb in
  ((is_loaded (contract (vars s)) = true ->
    is_loaded (provider (vars s)) = true) ->
   is_loaded (contract (vars s')) = true ->
   is_loaded (provider (vars s')) = true)
  /\ (gave_data cb = false -> vars s' = vars s)
  /\ ((listening s = Some PORT -> running s = true) ->
      listening s' = Some PORT -> running s' = true)
  /\ (listening s' = Some PORT ->
      listening s = Some PORT \/ cb = listen_started)
  /\ (listening s = None \/ listening s = Some PORT ->
      listening s' = None \/ listening s' = Some PORT)
  /\ stack s' = stack s.
Proof.
  cbn zeta.
  assert (Hload : forall data g r,
             loadContract L M data (vars s) = (g, r) ->
             (is_loaded (contract (vars s)) = true ->
              is_loaded (provider (vars s)) = true) ->
             is_loaded (contract g) = true -> is_loaded (provider g) = true).
  { intros data g r Heq. pose proof (loadContract_vars data (vars s)) as H.
    rewrite Heq in H. apply H. }
  callback_cases s cb;
    repeat split; eauto; try discriminate; try tauto.
Qed.

(** X14. Whatever the event loop has brought since [initAPI()]:
    [contract] is never assigned while [provider] still holds its first
    string; as long as no read of the ABI file gave its content, both
    variables hold their first string; a content that [JSON.parse]
    refuses leaves [contract] as it was. The server listens on port 8080
    or on none, and on 8080 only while the process runs and after the
    callback of [app.listen] ran. While the process runs and the
    callback is still to come: a failed read of the ABI file only logs
    the error; a [loadContract] that rejects ends the process under a
    Node that exits on unhandled rejections, and leaves it running
    otherwise; a port that cannot be bound ends the process. Once the
    process has ended it listens on no port and nothing changes any
    more. *)
Theorem variables_after_start (callbacks : list callback) :
  let s := started L M callbacks in
  (is_loaded (contract (vars s)) = true ->
   is_loaded (provider (vars s)) = true)
  /\ (existsb gave_data callbacks = false -> vars s = initial L M)
  /\ (forall data e,
        JSON_parse L data = Thrown e ->
        contract (vars (started L M (callbacks ++ [file_read (Returned data)])))
        = contract (vars s))
  /\ (listening s = None \/ listening s = Some PORT)
  /\ (listening s = Some PORT ->
      running s = true /\ In listen_started callbacks)
  /\ (running s = true -> read_pending s = true ->
      (forall err,
          let s' := on_callback L M s (file_read (Thrown err)) in
          running s' = true /\ vars s' = vars s
          /\ listening s' = listening s
          /\ console s' = console s ++ [[LError err]])
      /\ (forall data e,
             (loadContract L M data (vars s)).2 = Thrown e ->
             let s' := on_callback L M s (file_read (Returned data)) in
             running s' = negb (unhandled_rejection_exits L)
             /\ (unhandled_rejection_exits L = true -> listening s' = None)
             /\ (unhandled_rejection_exits L = false ->
                 listening s' = listening s)))
  /\ (running s = true -> listen_pending s = true ->
      forall err,
        let s' := on_callback L M s (listen_failed err) in
        running s' = false /\ listening s' = None)
  /\ (running s = false ->
      listening s = None /\ forall cb, on_callback L M s cb = s).
Proof.
  cbn zeta.
  assert (Hinv : forall cbs,
             let s := started L M cbs in
             (is_loaded (contract (vars s)) = true ->
              is_loaded (provider (vars s)) = true)
             /\ (existsb gave_data cbs = false -> vars s = initial L M)
             /\ (listening s = None \/ listening s = Some PORT)
             /\ (listening s = Some PORT -> running s = true)
             /\ (listening s = Some PORT -> In listen_started cbs)).
  { induction cbs as [|cb cbs IH] using rev_ind.
    - cbn. repeat split; auto; discriminate.
    - cbn zeta in *. rewrite started_snoc.
      destruct IH as (I1 & I2 & I3 & I4 & I5).
      pose proof (on_callback_keeps (started L M cbs) cb)
        as (K1 & K2 & K3 & K4 & K5 & _). cbn zeta in *.
      split; [auto|]. split.
      { rewrite existsb_app. cbn. rewrite orb_false_r.
        intros [Hcbs Hcb]%orb_false_elim.
        rewrite K2 by exact Hcb. auto. }
      split; [auto|]. split; [auto|].
      intros Hl. apply in_or_app. destruct (K4 Hl) as [Hs| ->].
      + left. auto.
      + right. left. reflexivity. }
  destruct (Hinv callbacks) as (I1 & I2 & I3 & I4 & I5). cbn zeta in *.
  set (s := started L M callbacks) in *.
  split; [exact I1|]. split; [exact I2|]. split.
  { intros data e Hparse. rewrite started_snoc. fold s.
    pose proof (loadContract_vars data (vars s)) as H.
    unfold on_callback, exit.
    destruct (running s); cbn [negb]; [|reflexivity].
    destruct (read_pending s); cbn [negb]; [|reflexivity].
    destruct (loadContract L M data (vars s)) as [g r].
    destruct H as (_ & H & _). specialize (H e Hparse).
    destruct r; [exact H|].
    destruct (unhandled_rejection_exits L); exact H. }
  split; [exact I3|]. split; [auto|]. split.
  { intros Hrun Hread. unfold on_callback, exit. rewrite Hrun, Hread.
    cbn [negb]. split; [repeat split; reflexivity|].
    intros data e Hrejects.
    destruct (loadContract L M data (vars s)) as [g r].
    cbn in Hrejects. subst r.
    destruct (unhandled_rejection_exits L); cbn;
      repeat split; try reflexivity; discriminate. }
  split.
  { intros Hrun Hlisten err. unfold on_callback, exit.
    rewrite Hrun, Hlisten. split; reflexivity. }
  intros Hstopped. split.
  - destruct I3 as [Hnone|Hport]; [exact Hnone|].
    rewrite (I4 Hport) in Hstopped. discriminate.
  - intros cb. unfold on_callback. rewrite Hstopped. reflexivity.
Qed.

Lemma stack_started (callbacks : list callback) :
  stack (started L M callbacks) = [route "GET" "/verified-chain"; cors "*"].
Proof.
  induction callbacks as [|cb cbs IH] using rev_ind; [reflexivity|].
  rewrite started_snoc.
  pose proof (on_callback_keeps (started L M cbs) cb) as (_ & _ & _ & _ & _ & H).
  cbn zeta in H. rewrite H. exact IH.
Qed.

(** X15. CORS is enabled after the route is registered: whatever
    callbacks have run, a [GET] or [HEAD] of [/verified-chain] runs the
    route handler and never passes through the CORS middleware, while a
    [GET] of a path the route does not match, and every preflight
    request, do. *)
Theorem route_is_registered_before_cors
        (matches : string -> string -> bool) (callbacks : list callback) :
  matches "/verified-chain" "/verified-chain" = true ->
  let layers := stack (started L M callbacks) in
  dispatch matches layers "GET" "/verified-chain"
  = [route "GET" "/verified-chain"]
  /\ dispatch matches layers "HEAD" "/verified-chain"
     = [route "GET" "/verified-chain"]
  /\ (forall path, matches "/verified-chain" path = false ->
      dispatch matches layers "GET" path = [cors "*"])
  /\ (forall path, dispatch matches layers "OPTIONS" path = [cors "*"]).
Proof.
  intros Hself. cbn zeta. rewrite stack_started. cbn [dispatch].
  change (handles "GET" "GET") with true.
  change (handles "GET" "HEAD") with true.
  change (handles "GET" "OPTIONS") with false.
  change (String.eqb "GET" "OPTIONS") with false.
  change (String.eqb "OPTIONS" "OPTIONS") with true.
  rewrite Hself. cbn [andb].
  split; [reflexivity|]. split; [reflexivity|]. split; [|reflexivity].
  intros path ->. reflexivity.
Qed.

End StartUp.

Section NotLoaded.

Context (C : Collaborators) (PRIVATE_KEY : option string) (L : Library).

Lemma relaySetProof_not_loaded (g : globals L) (hello : string)
      (w : World (through g C)) t w' r :
  is_loaded (contract g) = false ->
  interp (through g C) (relaySetProof PRIVATE_KEY hello) w = (t, w', r) ->
  submissions t = [] /\ existsb contract_answered t = false
  /\ exists e, caught_in_relaySetProof t = Some e.
Proof.
  destruct g as [[s'|p] [s|c]]; cbn [contract is_loaded]; try discriminate;
    intros _; destruct w as [fs x]; unfold relaySetProof;
    run; intros [= <- <- <-]; cbn; repeat split; eexists; reflexivity.
Qed.

Lemma verifyProof_not_loaded (g : globals L)
      (w : World (through g C)) t w' r :
  is_loaded (contract g) = false ->
  interp (through g C) (verifyProof PRIVATE_KEY) w = (t, w', r) ->
  counter_reads t = [] /\ verify_calls t = [] /\ file_reads t = []
  /\ existsb contract_answered t = false
  /\ exists e, caught_in_verifyProof t = Some e.
Proof.
  destruct g as [[s'|p] [s|c]]; cbn [contract is_loaded]; try discriminate;
    intros _; destruct w as [fs x]; unfold verifyProof;
    run; intros [= <- <- <-]; cbn; repeat split; eexists; reflexivity.
Qed.

(** X16. A request served while [contract] still holds its first string
    (the ABI file is not read yet, could not be read, or could not be
    parsed) runs the prover and hashes the artifact, but gets no answer
    from the contract: no transaction is sent, the counter is not read and
    [verify_proof] is not called. Both functions catch an error, and the
    caller is sent the usual body. *)
Theorem request_before_contract_is_loaded (g : globals L)
        (req : request) (w : World (through g C)) t w' r :
  is_loaded (contract g) = false ->
  interp (through g C) (verified_chain PRIVATE_KEY req) w = (t, w', r) ->
  existsb contract_answered t = false
  /\ submissions t = [] /\ counter_reads t = [] /\ verify_calls t = []
  /\ (r = Returned tt ->
      (exists e, final_state t r = Failed Submitting e)
      /\ (exists e, caught_in_verifyProof t = Some e)
      /\ response t
         = Some {| message :=
                     to_string (param req "helloSetter")
                       +:+ " setted hello to " +:+ " "
                       +:+ to_string (param req "hello") |}).
Proof.
  intros Hc Hrun. apply verified_chain_run in Hrun.
  destruct (handle (through g C) (exec PROVE_COMMAND) w) as [w1 [[so se]|e]];
    [|destruct Hrun as (-> & -> & _); repeat split; discriminate].
  destruct (files w1 !! PROOF_PATH) as [artifact|];
    [|destruct Hrun as (-> & -> & _); repeat split; discriminate].
  destruct (write_error (through g C) "test.txt" (outside w1)) as [e|];
    [destruct Hrun as (-> & -> & _); repeat split; discriminate|].
  destruct Hrun as (t_relay & w2 & t_verify & Hrelay & Hverify & -> & ->).
  pose proof (relaySetProof_run _ _ _ _ _ _ _ Hrelay)
    as (_ & _ & (_ & Rcr & Rv & _ & Rs & _ & Rcv) & _).
  pose proof (verifyProof_run _ _ _ _ _ _ Hverify)
    as (_ & _ & (_ & Vs & _ & Vsend & _ & Vcr) & _).
  apply (relaySetProof_not_loaded g) in Hrelay as (Rsub & Rans & e1 & Re1);
    [|exact Hc].
  apply (verifyProof_not_loaded g) in Hverify
    as (Vcnt & Vv & _ & Vans & e2 & Ve2); [|exact Hc].
  unfold final_state, response. rewrite !existsb_app.
  autorewrite with trace_app.
  rewrite Rsub, Rcr, Rv, Vs, Vcnt, Vv, Re1, Rcv, Ve2, Rs, Vsend, Rans, Vans.
  cbn. repeat split; try reflexivity.
  - exists e1. reflexivity.
  - exists e2. reflexivity.
Qed.

End NotLoaded.

Lemma request_before_contract_is_loaded_witness :
  existsb contract_answered run_not_loaded.1.1 = false
  /\ submissions run_not_loaded.1.1 = []
  /\ counter_reads run_not_loaded.1.1 = []
  /\ verify_calls run_not_loaded.1.1 = [].
Proof.
  pose proof (request_before_contract_is_loaded
                Stub.collaborators Stub.KEY library0
                (initial library0 (first_module None)) Stub.request0
                (Build_World not_loaded ∅ node0)
                run_not_loaded.1.1 run_not_loaded.1.2 run_not_loaded.2
                eq_refl (triple_eta run_not_loaded))
    as (H1 & H2 & H3 & H4 & _).
  repeat split; assumption.
Defined.

Lemma route_is_registered_before_cors_witness :
  dispatch String.eqb
    (stack (started library0 (first_module None)
                    [listen_started; file_read (Returned "[]")]))
    "GET" "/verified-chain"
  = [route "GET" "/verified-chain"].
Proof.
  apply (route_is_registered_before_cors library0 (first_module None)
           String.eqb [listen_started; file_read (Returned "[]")]).
  reflexivity.
Defined.
